(** * DJI thermal R-JPEG to TIFF converter: a shallow embedding

    The development follows [src/config.py] (the device registry) and
    [src/dji_thermal_converter.py] (resolution detection, the synthetic
    temperature field, the int16 TIFF encoder, the single-file job and the
    batch loop).

    - numpy [float32]/[float64] values are [spec_float]s, computed with the
      IEEE-754 operations of [SpecFloat] at precision 24/128 and 53/1024;
    - a Python [dict] with string keys is a [gmap string _];
    - code that reads or writes files, logs, or raises is written in a small
      state-and-exception monad over the file system and the log;
    - PIL, [os], [json], the clock and libm's [exp] are fields of an
      environment record [Env]: the code is verified for every environment;
    - [str.upper()] on a file name, which follows the Unicode tables, is a
      parameter of the methods that test file names;
    - a pixel of a mode "I;16" image is read back as an unsigned sample. *)

From Stdlib Require Import ZArith QArith Qabs Qpower Lia Lqa String Ascii SpecFloat.
From stdpp Require Import base gmap strings list.

Open Scope Z_scope.

(** ** Python runtime: exceptions, results, strings *)

Module Py.

(** The exception classes the code can meet; all derive from [Exception],
    which is what every [except Exception] clause of the source catches. *)
Inductive exn : Type :=
| ValueError
| KeyError
| TypeError
| OSError
| LibraryError (code : Z).

Inductive result (A : Type) : Type :=
| Ok (a : A)
| Raise (e : exn).
Arguments Ok {A} a.
Arguments Raise {A} e.

Definition is_ok {A} (r : result A) : bool :=
  match r with Ok _ => true | Raise _ => false end.

(** [str.upper()] and [str.lower()] on the ASCII letters; other bytes are
    left as they are. *)
Definition upper_ascii (c : ascii) : ascii :=
  let n := nat_of_ascii c in
  if ((97 <=? n) && (n <=? 122))%nat then ascii_of_nat (n - 32) else c.

Definition lower_ascii (c : ascii) : ascii :=
  let n := nat_of_ascii c in
  if ((65 <=? n) && (n <=? 90))%nat then ascii_of_nat (n + 32) else c.

Fixpoint str_map (f : ascii -> ascii) (s : string) : string :=
  match s with
  | EmptyString => EmptyString
  | String c s' => String (f c) (str_map f s')
  end.

Definition upper : string -> string := str_map upper_ascii.
Definition lower : string -> string := str_map lower_ascii.

(** [s.startswith(p)] *)
Fixpoint startswith (p s : string) : bool :=
  match p, s with
  | EmptyString, _ => true
  | String a p', String b s' => if ascii_dec a b then startswith p' s' else false
  | String _ _, EmptyString => false
  end.

(** [p in s] on strings (and on [bytes], read as strings of bytes). *)
Fixpoint contains (p s : string) : bool :=
  startswith p s ||
  match s with
  | EmptyString => false
  | String _ s' => contains p s'
  end.

(** [s.endswith(p)] *)
Fixpoint endswith (p s : string) : bool :=
  (if string_dec p s then true else false) ||
  match s with
  | EmptyString => false
  | String _ s' => endswith p s'
  end.

End Py.
Export Py.

(** ** numpy floats *)

Module NP.

(** [np.float32] *)
Definition f32_mul : spec_float -> spec_float -> spec_float := SFmul 24 128.
Definition f32_of_Z (z : Z) : spec_float := binary_normalize 24 128 z 0 false.

(** [np.float64], also Python's [float] *)
Definition f64_add : spec_float -> spec_float -> spec_float := SFadd 53 1024.
Definition f64_mul : spec_float -> spec_float -> spec_float := SFmul 53 1024.
Definition f64_div : spec_float -> spec_float -> spec_float := SFdiv 53 1024.
Definition f64_sqrt : spec_float -> spec_float := SFsqrt 53 1024.
Definition f64_of_Z (z : Z) : spec_float := binary_normalize 53 1024 z 0 false.

(** Narrowing a double to [float32] (a store into a [float32] array):
    the value is rounded to nearest-even at precision 24. *)
Definition f32_of_f64 (x : spec_float) : spec_float :=
  match x with
  | S754_finite s m e => binary_round 24 128 s m e
  | _ => x
  end.

(** Every [float32] is a [float64]: widening changes nothing. *)
Definition f64_of_f32 (x : spec_float) : spec_float :=
  match x with
  | S754_finite s m e => binary_round 53 1024 s m e
  | _ => x
  end.

(** The scalar [10] of [temperature_data * 10], as numpy converts it for a
    [float32] array. *)
Definition f32_ten : spec_float := Eval vm_compute in f32_of_Z 10.

(** The C conversion of a float to an integer type drops the fraction
    (rounds toward zero); it has no value for NaN and the infinities. *)
Definition SFtrunc (x : spec_float) : option Z :=
  match x with
  | S754_zero _ => Some 0
  | S754_finite s m e =>
      Some (cond_Zopp s (if 0 <=? e then Zpos m * 2 ^ e else Zpos m / 2 ^ (- e)))
  | S754_infinity _ | S754_nan => None
  end.

Definition int16_min : Z := -32768.
Definition int16_max : Z := 32767.
Definition in_int16 (z : Z) : bool := (int16_min <=? z) && (z <=? int16_max).

(** Two's-complement reduction to 16 bits. *)
Definition wrap16 (z : Z) : Z := (z + 32768) mod 65536 - 32768.

(** [arr.astype(np.int16)] on one cell.  A value whose truncation fits is
    converted exactly.  Otherwise C leaves the conversion undefined; numpy
    raises nothing (it may emit a RuntimeWarning) and stores whatever the
    hardware conversion [hw] produced, reduced to 16 bits. *)
Definition astype_int16 (hw : spec_float -> Z) (x : spec_float) : Z :=
  match SFtrunc x with
  | Some z => if in_int16 z then z else wrap16 (hw x)
  | None => wrap16 (hw x)
  end.

(** What x86-64 does: [cvttss2si] to 32 bits, the "integer indefinite"
    [-2^31] when the value does not fit, then the low 16 bits. *)
Definition hw_x86 (x : spec_float) : Z :=
  match SFtrunc x with
  | Some z => if (- 2 ^ 31 <=? z) && (z <? 2 ^ 31) then z else - 2 ^ 31
  | None => - 2 ^ 31
  end.

(** [np.int64] arithmetic wraps around. *)
Definition wrap64 (z : Z) : Z := (z + 2 ^ 63) mod 2 ^ 64 - 2 ^ 63.
Definition i64_add (a b : Z) : Z := wrap64 (a + b).
Definition i64_sub (a b : Z) : Z := wrap64 (a - b).
Definition i64_sqr (a : Z) : Z := wrap64 (a * a).

(** The exact rational value of a finite float ([0] for the others). *)
Definition SF2Q (x : spec_float) : Q :=
  match x with
  | S754_finite s m e => (inject_Z (cond_Zopp s (Zpos m)) * (2 # 1) ^ e)%Q
  | _ => 0%Q
  end.

Definition is_finite (x : spec_float) : bool :=
  match x with
  | S754_zero _ | S754_finite _ _ _ => true
  | _ => false
  end.

Definition is_nan (x : spec_float) : bool :=
  match x with S754_nan => true | _ => false end.

(** [np.minimum] / [np.maximum] on two cells: a NaN wins. *)
Definition f_min (a b : spec_float) : spec_float :=
  if is_nan a then a else if is_nan b then b
  else if SFltb b a then b else a.
Definition f_max (a b : spec_float) : spec_float :=
  if is_nan a then a else if is_nan b then b
  else if SFltb a b then b else a.

End NP.
Export NP.

(** ** [config.py]: the device registry *)

Module Config.

Record model_config : Type := {
  name : string;
  temperature_range : Z * Z;        (* degrees Celsius, inclusive *)
  resolution : Z * Z;               (* (width, height) *)
  pixel_size : Q;                   (* micrometres *)
  format_support : list string;
  spectral_range : Q * Q;           (* micrometres *)
  thermal_sensitivity : Q;          (* degrees Celsius *)
  description : string
}.

Definition M30T_config : model_config := {|
  name := "大疆 M30T";
  temperature_range := (-20, 400);
  resolution := (640, 512);
  pixel_size := 12;
  format_support := ["jpg"; "jpeg"]%string;
  spectral_range := (8, 14)%Q;
  thermal_sensitivity := (5 # 100)%Q;
  description := "大疆M30T无人机内置热红外相机" |}.

Definition H20T_config : model_config := {|
  name := "大疆 H20T";
  temperature_range := (-20, 550);
  resolution := (640, 512);
  pixel_size := 12;
  format_support := ["jpg"; "jpeg"]%string;
  spectral_range := (8, 14)%Q;
  thermal_sensitivity := (5 # 100)%Q;
  description := "大疆H20T热红外云台相机" |}.

Definition H30T_config : model_config := {|
  name := "大疆 H30T";
  temperature_range := (-20, 1600);
  resolution := (640, 512);
  pixel_size := 12;
  format_support := ["jpg"; "jpeg"]%string;
  spectral_range := (8, 14)%Q;
  thermal_sensitivity := (5 # 100)%Q;
  description := "大疆H30T高温热红外云台相机" |}.

Definition M2EA_config : model_config := {|
  name := "大疆 御2行业进阶版";
  temperature_range := (-10, 400);
  resolution := (640, 512);
  pixel_size := 17;
  format_support := ["jpg"; "jpeg"]%string;
  spectral_range := (8, 14)%Q;
  thermal_sensitivity := (1 # 10)%Q;
  description := "大疆御2行业进阶版热红外相机" |}.

(** [Config.DRONE_MODELS] *)
Definition DRONE_MODELS : gmap string model_config :=
  <["M30T" := M30T_config]>
    (<["H20T" := H20T_config]>
       (<["H30T" := H30T_config]>
          (<["M2EA" := M2EA_config]> ∅))).

(** [Config.get_model_config]: the id is uppercased, then looked up; an
    id that is not a key raises [ValueError]. *)
Definition get_model_config (model : string) : result model_config :=
  let model := upper model in
  match DRONE_MODELS !! model with
  | None => Raise ValueError
  | Some cfg => Ok cfg
  end.

(** [Config.get_supported_models]: the keys, in the order of the literal. *)
Definition get_supported_models : list string :=
  ["M30T"; "H20T"; "H30T"; "M2EA"]%string.

(** [temp_min <= temperature <= temp_max], Python's exact comparison of an
    [int] with a [float]; every comparison with NaN is false, and an
    infinity is outside every range. *)
Definition validate_temperature_range (temperature : spec_float) (model : string)
  : result bool :=
  match get_model_config model with
  | Raise e => Raise e
  | Ok config =>
      let '(temp_min, temp_max) := temperature_range config in
      Ok (is_finite temperature
          && Qle_bool (inject_Z temp_min) (SF2Q temperature)
          && Qle_bool (SF2Q temperature) (inject_Z temp_max))
  end.

End Config.


(** ** [dji_thermal_converter.py] *)

Module Converter.

(** *** Data *)

Record device_config : Type := {
  name : string;
  temperature_range : Z * Z;
  resolution : Z * Z;                 (* (width, height) *)
  description : string
}.

(** A two-dimensional numpy array: its [shape] is (height, width), its
    [rows] are [height] lists of [width] cells. *)
Record ndarray (A : Type) : Type := {
  shape : Z * Z;
  rows : list (list A)
}.
Arguments shape {A} _.
Arguments rows {A} _.

Definition size {A} (a : ndarray A) : Z := fst (shape a) * snd (shape a).

Definition cell {A} (a : ndarray A) (i j : nat) : option A :=
  match rows a !! i with
  | Some row => row !! j
  | None => None
  end.

(** An elementwise operation keeps the shape. *)
Definition nd_map {A B} (f : A -> B) (a : ndarray A) : ndarray B :=
  {| shape := shape a; rows := map (map f) (rows a) |}.

(** The metadata dictionary built by [extract_temperature_data]. *)
Record metadata : Type := {
  original_file : string;
  conversion_time : string;
  file_size : Z;
  data_type : string;
  sdk_version : string;
  temperature_unit : string;
  detected_resolution : Z * Z;
  detected_width : Z;
  detected_height : Z;
  device_model : string;
  data_shape : Z * Z;
  is_real_data : bool;
  warning : option string
}.

(** A PIL image built by [Image.fromarray]: the mode and the pixel array. *)
Record pil_image : Type := {
  im_mode : string;
  im_pixels : ndarray Z
}.

(** What the logger is sent, one constructor for each call site. *)
Inductive message : Type :=
| ResolutionDetected (width height : Z)
| ResolutionFallback (e : exn)
| FileRead (path : string) (size : Z)
| SdkMissingDemoData
| SdkMissingNotRealValues
| ExtractFailed (e : exn)
| MockNoSdk
| MockInstallHint
| MockDownloadUrl
| UsingSdk
| MockCreate (width height : Z)
| TiffSaved (path : string)
| TiffSaveFailed (e : exn)
| ConvertStart (path : string)
| ConvertDone (path : string)
| TemperatureRange (lo hi : spec_float)
| ConvertFailed (e : exn)
| FoundFiles (total : Z)
| FileFailed (path : string) (e : exn)
| BatchDone (success failed : Z)
| BatchFailed (e : exn).

Inductive log_record : Type :=
| INFO (m : message)
| WARNING (m : message)
| ERROR (m : message).

(** *** The environment: PIL, [os], [json], the clock, libm *)

Record Env : Type := {
  world : Type;
  (** [Image.open(path).size] *)
  pil_open_size : world -> string -> result (Z * Z);
  (** [open(path, 'rb').read()] *)
  read_bytes : world -> string -> result string;
  (** [os.path.getsize] *)
  os_getsize : world -> string -> result Z;
  (** [os.walk]: the (root, files) pairs, top-down *)
  os_walk : world -> string -> result (list (string * list string));
  (** [os.makedirs(dir, exist_ok=True)] *)
  os_makedirs : string -> world -> world * result unit;
  (** what [Image.fromarray(arr, mode='I;16')] checks of the array *)
  pil_fromarray_check : ndarray Z -> result unit;
  (** [image.save(path, format='TIFF', compression=..., tiffinfo=...)] *)
  pil_save : pil_image -> string -> string -> gmap Z string -> world -> world * result unit;
  (** [json.dumps(metadata, ensure_ascii=False)] *)
  json_dumps : metadata -> string;
  (** [datetime.now().isoformat()] and [.strftime('%Y:%m:%d %H:%M:%S')] *)
  now_isoformat : world -> string;
  now_strftime : world -> string;
  (** [os.path] *)
  path_basename : string -> string;
  path_dirname : string -> string;
  path_join : string -> string -> string;
  path_splitext : string -> string * string;
  path_relpath : string -> string -> result string;
  (** [np.exp] on a double *)
  np_exp : spec_float -> spec_float;
  (** the hardware float-to-int conversion outside the target range *)
  cast_hw : spec_float -> Z
}.

(** The converter object after [__init__]; no method changes it. *)
Record converter : Type := {
  sdk_handle : option Z;
  is_initialized : bool;
  device_configs : gmap string device_config;
  default_model : string
}.

Definition the_device_configs : gmap string device_config :=
  <["M30T" := {| name := "大疆 M30T";
                 temperature_range := (-20, 400);
                 resolution := (1280, 1024);
                 description := "大疆M30T无人机内置热红外相机" |}]>
    (<["H20T" := {| name := "大疆 H20T";
                    temperature_range := (-20, 550);
                    resolution := (640, 512);
                    description := "大疆H20T热红外云台相机" |}]>
       (<["H30T" := {| name := "大疆 H30T";
                       temperature_range := (-20, 1600);
                       resolution := (640, 512);
                       description := "大疆H30T高温热红外云台相机" |}]>
          (<["M2EA" := {| name := "大疆 御2行业进阶版";
                          temperature_range := (-10, 400);
                          resolution := (640, 512);
                          description := "大疆御2行业进阶版热红外相机" |}]> ∅))).

(** [DJIThermalConverter.__init__]; [handle] is what [_init_sdk] obtained
    from [cdll.LoadLibrary], [None] when no library was found or loaded. *)
Definition init (handle : option Z) : converter := {|
  sdk_handle := handle;
  is_initialized := match handle with Some _ => true | None => false end;
  device_configs := the_device_configs;
  default_model := "M30T"
|}.

(** *** The monad of the methods: state (file system, log) and exceptions *)

Section Methods.

Context (E : Env).

Record state : Type := {
  fs : world E;
  log : list log_record
}.

Definition M (A : Type) : Type := state -> state * result A.

Definition ret {A} (a : A) : M A := fun st => (st, Ok a).

Definition raise {A} (e : exn) : M A := fun st => (st, Raise e).

Definition bind {A B} (c : M A) (k : A -> M B) : M B :=
  fun st =>
    match c st with
    | (st', Ok a) => k a st'
    | (st', Raise e) => (st', Raise e)
    end.

(** [try: c  except Exception as e: h e] *)
Definition try_except {A} (c : M A) (h : exn -> M A) : M A :=
  fun st =>
    match c st with
    | (st', Ok a) => (st', Ok a)
    | (st', Raise e) => h e st'
    end.

(** A call that only reads the file system. *)
Definition reading {A} (f : world E -> result A) : M A :=
  fun st => (st, f (fs st)).

(** A call that may change the file system, also when it raises. *)
Definition writing {A} (f : world E -> world E * result A) : M A :=
  fun st =>
    let '(w, r) := f (fs st) in
    ({| fs := w; log := log st |}, r).

(** [self.logger.info / warning / error] *)
Definition logger (r : log_record) : M unit :=
  fun st => ({| fs := fs st; log := log st ++ [r] |}, Ok tt).

(** A pure computation that may raise. *)
Definition lift {A} (r : result A) : M A := fun st => (st, r).

Notation "'let*' x ':=' c 'in' k" := (bind c (fun x => k))
  (at level 10, x pattern, c at level 100, k at level 200).
Notation "c ';;' k" := (bind c (fun _ => k))
  (at level 100, k at level 200, right associativity).

(** *** [_detect_image_resolution] *)

Definition _detect_image_resolution (self : converter) (image_path : string)
  : M (Z * Z) :=
  try_except
    (let* (width, height) := reading (fun w => pil_open_size E w image_path) in
     logger (INFO (ResolutionDetected width height)) ;;
     ret (width, height))
    (fun e =>
       logger (WARNING (ResolutionFallback e)) ;;
       match device_configs self !! default_model self with
       | Some cfg => ret (resolution cfg)
       | None => raise KeyError
       end).

(** *** [_create_mock_temperature_data] *)

(** [np.zeros((height, width), dtype=np.float32)]: numpy refuses a negative
    dimension with [ValueError]. *)
Definition np_zeros (height width : Z) : result (ndarray spec_float) :=
  if (height <? 0) || (width <? 0) then Raise ValueError
  else Ok {| shape := (height, width);
             rows := replicate (Z.to_nat height)
                       (replicate (Z.to_nat width) (S754_zero false)) |}.

(** [a[i, j] = v] *)
Definition set_item {A} (a : ndarray A) (i j : Z) (v : A) : ndarray A :=
  {| shape := shape a;
     rows := alter (fun row => <[Z.to_nat j := v]> row) (Z.to_nat i) (rows a) |}.

(** [20.0 + 20.0 * (i / height) * (j / width)], in Python doubles. *)
Definition gradient (height width i j : Z) : spec_float :=
  f64_add (f64_of_Z 20)
    (f64_mul (f64_mul (f64_of_Z 20) (f64_div (f64_of_Z i) (f64_of_Z height)))
       (f64_div (f64_of_Z j) (f64_of_Z width))).

(** The two nested [for] loops that store the gradient, cell by cell,
    narrowing each double to the array's [float32]. *)
Definition fill_gradient (height width : Z) (a : ndarray spec_float)
  : ndarray spec_float :=
  foldl (fun a i =>
           foldl (fun a j => set_item a i j (f32_of_f64 (gradient height width i j)))
             a (seqZ 0 width))
    a (seqZ 0 height).

(** [np.sqrt((x - center_x)**2 + (y - center_y)**2)] on the [int64] open
    grid. *)
Definition distance1 (center_x center_y x y : Z) : spec_float :=
  f64_sqrt (f64_of_Z (i64_add (i64_sqr (i64_sub x center_x))
                        (i64_sqr (i64_sub y center_y)))).

(** [np.sqrt((x - center_x + 100)**2 + (y - center_y + 100)**2)] *)
Definition distance2 (center_x center_y x y : Z) : spec_float :=
  f64_sqrt (f64_of_Z (i64_add (i64_sqr (i64_add (i64_sub x center_x) 100))
                        (i64_sqr (i64_add (i64_sub y center_y) 100)))).

(** [peak * np.exp(-d / scale)] *)
Definition hot_spot (peak scale : Z) (d : spec_float) : spec_float :=
  f64_mul (f64_of_Z peak) (np_exp E (f64_div (SFopp d) (f64_of_Z scale))).

(** [hot_spot1 + hot_spot2] at column [x], row [y], a double. *)
Definition hot_spots (width height x y : Z) : spec_float :=
  let center_x := width / 2 in
  let center_y := height / 2 in
  f64_add (hot_spot 60 50 (distance1 center_x center_y x y))
          (hot_spot 45 30 (distance2 center_x center_y x y)).

(** The broadcast of the two open grids to an array of shape (height, width). *)
Definition hot_spot_array (height width : Z) : ndarray spec_float :=
  {| shape := (height, width);
     rows := map (fun y => map (fun x => hot_spots width height x y) (seqZ 0 width))
               (seqZ 0 height) |}.

(** [a += b] for a [float32] array [a] and a [float64] array [b] of the same
    shape: the sum is taken in doubles and narrowed on the store. *)
Definition iadd (a b : ndarray spec_float) : ndarray spec_float :=
  {| shape := shape a;
     rows := zip_with (zip_with (fun x y => f32_of_f64 (f64_add (f64_of_f32 x) y)))
               (rows a) (rows b) |}.

Definition _create_mock_temperature_data (self : converter)
    (resolution : option (Z * Z)) : M (ndarray spec_float) :=
  let* (width, height) :=
    match resolution with
    | Some r => ret r
    | None =>
        match device_configs self !! default_model self with
        | Some cfg => ret (Converter.resolution cfg)
        | None => raise KeyError
        end
    end in
  logger (INFO (MockCreate width height)) ;;
  let* temperature_data := lift (np_zeros height width) in
  let temperature_data := fill_gradient height width temperature_data in
  ret (iadd temperature_data (hot_spot_array height width)).

(** *** [_parse_rjpeg_with_sdk] *)

Definition _parse_rjpeg_with_sdk (self : converter) (rjpeg_data : string)
    (resolution : option (Z * Z)) : M (ndarray spec_float) :=
  match sdk_handle self with
  | None =>
      logger (INFO MockNoSdk) ;;
      logger (INFO MockInstallHint) ;;
      logger (INFO MockDownloadUrl) ;;
      _create_mock_temperature_data self resolution
  | Some _ =>
      logger (INFO UsingSdk) ;;
      _create_mock_temperature_data self resolution
  end.

(** *** [extract_temperature_data] *)

Definition extract_temperature_data (self : converter) (rjpeg_path : string)
  : M (ndarray spec_float * metadata) :=
  try_except
    (let* (detected_width, detected_height) :=
       _detect_image_resolution self rjpeg_path in
     let* rjpeg_data := reading (fun w => read_bytes E w rjpeg_path) in
     logger (INFO (FileRead rjpeg_path (Z.of_nat (String.length rjpeg_data)))) ;;
     (if is_initialized self then ret tt
      else (logger (INFO SdkMissingDemoData) ;;
            logger (INFO SdkMissingNotRealValues))) ;;
     let* temperature_data :=
       _parse_rjpeg_with_sdk self rjpeg_data (Some (detected_width, detected_height)) in
     let* now := reading (fun w => Ok (now_isoformat E w)) in
     ret (temperature_data,
          {| original_file := path_basename E rjpeg_path;
             conversion_time := now;
             file_size := Z.of_nat (String.length rjpeg_data);
             data_type := "R-JPEG";
             sdk_version := if is_initialized self then "DJI Thermal SDK v1.4"
                            else "Mock Data (SDK Not Installed)";
             temperature_unit := "Celsius (0.1°C precision)";
             detected_resolution := (detected_width, detected_height);
             detected_width := detected_width;
             detected_height := detected_height;
             device_model := default_model self;
             data_shape := shape temperature_data;
             is_real_data := is_initialized self;
             warning := if is_initialized self then None
                        else Some "此为模拟数据，非真实温度值"
          |}))
    (fun e => logger (ERROR (ExtractFailed e)) ;; raise e).

(** *** [save_temperature_tiff] *)

(** [(temperature_data * 10).astype(np.int16)]: the product is taken in
    [float32], the conversion drops the fraction. *)
Definition scale_cell (t : spec_float) : Z :=
  astype_int16 (cast_hw E) (f32_mul t f32_ten).

Definition temp_scaled (temperature_data : ndarray spec_float) : ndarray Z :=
  nd_map scale_cell temperature_data.

(** [Image.fromarray(arr, mode='I;16')] *)
Definition Image_fromarray (arr : ndarray Z) : result pil_image :=
  match pil_fromarray_check E arr with
  | Ok _ => Ok {| im_mode := "I;16"; im_pixels := arr |}
  | Raise e => Raise e
  end.

(** The [tiffinfo] dictionary: ImageDescription, Software, DateTime,
    DocumentName. *)
Definition tiff_tags (md : metadata) (now : string) : gmap Z string :=
  <[270 := json_dumps E md]>
    (<[305 := "DJI Thermal Converter with SDK v1.0"%string]>
       (<[306 := now]>
          (<[269 := "DJI R-JPEG Temperature Data"%string]> ∅))).

Definition save_temperature_tiff (self : converter)
    (temperature_data : ndarray spec_float) (md : metadata)
    (output_path : string) (compression : string) : M bool :=
  try_except
    (let output_dir := path_dirname E output_path in
     (if string_dec output_dir "" then ret tt
      else writing (os_makedirs E output_dir)) ;;
     let scaled := temp_scaled temperature_data in
     let* pil_image := lift (Image_fromarray scaled) in
     let* now := reading (fun w => Ok (now_strftime E w)) in
     writing (pil_save E pil_image output_path compression (tiff_tags md now)) ;;
     logger (INFO (TiffSaved output_path)) ;;
     ret true)
    (fun e => logger (ERROR (TiffSaveFailed e)) ;; ret false).

(** *** [convert_rjpeg_to_tiff] *)

(** [arr.min()] and [arr.max()]: numpy raises [ValueError] on an array
    without cells. *)
Definition nd_reduce (f : spec_float -> spec_float -> spec_float)
    (a : ndarray spec_float) : result spec_float :=
  match concat (rows a) with
  | [] => Raise ValueError
  | x :: xs => Ok (foldl f x xs)
  end.

Definition convert_rjpeg_to_tiff (self : converter) (input_path output_path : string)
  : M bool :=
  try_except
    (logger (INFO (ConvertStart input_path)) ;;
     let* (temperature_data, md) := extract_temperature_data self input_path in
     let* success := save_temperature_tiff self temperature_data md output_path "lzw" in
     (if success then
        logger (INFO (ConvertDone output_path)) ;;
        let* lo := lift (nd_reduce f_min temperature_data) in
        let* hi := lift (nd_reduce f_max temperature_data) in
        logger (INFO (TemperatureRange lo hi))
      else ret tt) ;;
     ret success)
    (fun e => logger (ERROR (ConvertFailed e)) ;; ret false).

(** *** [_is_likely_rjpeg] *)

(** [str.upper()] on a file name.  Python maps every code point by the
    Unicode tables, and some letters outside ASCII become ASCII ones (a
    dotless i becomes I), so the mapping is taken from the interpreter and
    not computed on bytes. *)
Variable str_upper : string -> string.

Definition _is_likely_rjpeg (self : converter) (file_path : string) : M bool :=
  try_except
    (let* file_size := reading (fun w => os_getsize E w file_path) in
     if file_size <? 100000 then ret false
     else
       let filename := str_upper (path_basename E file_path) in
       if contains "DJI" filename || contains "_T" filename || contains "_R" filename
       then ret true
       else
         let* content := reading (fun w => read_bytes E w file_path) in
         let header := substring 0 1000 content in
         if contains "DJI" header || contains "FLIR" header then ret true
         else ret true)
    (fun _ => ret false).

(** *** [batch_convert] *)

(** The [results] dictionary, with its three fixed keys. *)
Record results : Type := {
  success : Z;
  failed : Z;
  total : Z
}.

Definition incr_success (r : results) : results :=
  {| success := success r + 1; failed := failed r; total := total r |}.
Definition incr_failed (r : results) : results :=
  {| success := success r; failed := failed r + 1; total := total r |}.
Definition set_total (r : results) (n : Z) : results :=
  {| success := success r; failed := failed r; total := n |}.

(** The candidates of one directory, in the order [os.walk] lists them. *)
Fixpoint scan_files (self : converter) (root : string) (files : list string)
  : M (list string) :=
  match files with
  | [] => ret []
  | file :: rest =>
      let* here :=
        (if endswith ".jpg" (lower file) || endswith ".jpeg" (lower file) then
           let file_path := path_join E root file in
           let* likely := _is_likely_rjpeg self file_path in
           ret (if likely then [file_path] else [])
         else ret []) in
      let* more := scan_files self root rest in
      ret (here ++ more)
  end.

Fixpoint scan_dirs (self : converter) (dirs : list (string * list string))
  : M (list string) :=
  match dirs with
  | [] => ret []
  | (root, files) :: rest =>
      let* here := scan_files self root files in
      let* more := scan_dirs self rest in
      ret (here ++ more)
  end.

(** The first loop: every file below [input_dir] ([if not recursive: break]
    leaves the walk after its first directory). *)
Definition discover (self : converter) (input_dir : string) (recursive : bool)
  : M (list string) :=
  let* walk := reading (fun w => os_walk E w input_dir) in
  scan_dirs self (if recursive then walk else take 1 walk).

(** The body of the inner [try] for one file. *)
Definition job (self : converter) (input_dir output_dir rjpeg_file : string)
  : M bool :=
  let* relative_path := lift (path_relpath E rjpeg_file input_dir) in
  let output_file :=
    path_join E output_dir (fst (path_splitext E relative_path) +:+ ".tiff") in
  convert_rjpeg_to_tiff self rjpeg_file output_file.

(** One turn of the second loop: the counters are the loop's local state. *)
Definition job_step (self : converter) (input_dir output_dir : string)
    (acc : state * results) (rjpeg_file : string) : state * results :=
  let '(st, r) := acc in
  match job self input_dir output_dir rjpeg_file st with
  | (st', Ok true) => (st', incr_success r)
  | (st', Ok false) => (st', incr_failed r)
  | (st', Raise e) =>
      (fst (logger (ERROR (FileFailed rjpeg_file e)) st'), incr_failed r)
  end.

Definition run_jobs (self : converter) (input_dir output_dir : string)
    (rjpeg_files : list string) (acc : state * results) : state * results :=
  foldl (job_step self input_dir output_dir) acc rjpeg_files.

(** [batch_convert] returns its [results] in every case: the outer
    [except Exception] logs and falls through to [return results]. *)
Definition batch_convert (self : converter) (input_dir output_dir : string)
    (recursive : bool) : state -> state * results :=
  fun st =>
    let r0 := {| success := 0; failed := 0; total := 0 |} in
    match discover self input_dir recursive st with
    | (st1, Raise e) => (fst (logger (ERROR (BatchFailed e)) st1), r0)
    | (st1, Ok rjpeg_files) =>
        let r1 := set_total r0 (Z.of_nat (List.length rjpeg_files)) in
        let st2 := fst (logger (INFO (FoundFiles (total r1))) st1) in
        let '(st3, r3) := run_jobs self input_dir output_dir rjpeg_files (st2, r1) in
        (fst (logger (INFO (BatchDone (success r3) (failed r3))) st3), r3)
    end.

End Methods.

End Converter.

(** ** A small file system on which the methods can be run

    Paths map to source images or to written TIFF files.  Nothing is proved
    from it but statements about concrete runs. *)

Module Sim.

Import Converter.

Inductive file : Type :=
| SourceImage (size : Z * Z) (content : string)
| PlainFile (content : string)
| TiffFile (pixels : ndarray Z) (compression : string) (tags : gmap Z string).

Definition content_of (f : file) : string :=
  match f with
  | SourceImage _ c => c
  | PlainFile c => c
  | TiffFile _ _ _ => ""
  end.

(** The text before and after the last occurrence of [sep]. *)
Fixpoint rsplit (sep : ascii) (s : string) : option (string * string) :=
  match s with
  | EmptyString => None
  | String c s' =>
      match rsplit sep s' with
      | Some (a, b) => Some (String c a, b)
      | None => if ascii_dec c sep then Some (EmptyString, s') else None
      end
  end.

Definition basename (p : string) : string :=
  match rsplit "/" p with Some (_, b) => b | None => p end.

Definition dirname (p : string) : string :=
  match rsplit "/" p with Some (d, _) => d | None => "" end.

Definition join (a b : string) : string := a +:+ "/" +:+ b.

Definition splitext (p : string) : string * string :=
  match rsplit "." (basename p) with
  | Some (stem, ext) =>
      (String.substring 0 (String.length p - String.length ext - 1) p,
       "." +:+ ext)
  | None => (p, "")
  end.

Definition relpath (p start : string) : result string :=
  if startswith (start +:+ "/") p
  then Ok (String.substring (String.length start + 1)
             (String.length p - String.length start - 1) p)
  else Ok p.

Definition env : Env := {|
  world := gmap string file;
  pil_open_size := fun w p =>
    match w !! p with
    | Some (SourceImage sz _) => Ok sz
    | _ => Raise OSError
    end;
  read_bytes := fun w p =>
    match w !! p with
    | Some f => Ok (content_of f)
    | None => Raise OSError
    end;
  os_getsize := fun w p =>
    match w !! p with
    | Some f => Ok (Z.of_nat (String.length (content_of f)))
    | None => Raise OSError
    end;
  os_walk := fun w d =>
    Ok [(d, omap (fun p => if decide (dirname p = d) then Some (basename p) else None)
              (map fst (map_to_list w)))];
  os_makedirs := fun d w => (w, Ok tt);
  pil_fromarray_check := fun arr => if size arr <=? 0 then Raise ValueError else Ok tt;
  pil_save := fun img path compression tags w =>
    (<[path := TiffFile (im_pixels img) compression tags]> w, Ok tt);
  json_dumps := fun md => original_file md;
  now_isoformat := fun _ => "2024-01-01T00:00:00";
  now_strftime := fun _ => "2024:01:01 00:00:00";
  path_basename := basename;
  path_dirname := dirname;
  path_join := join;
  path_splitext := splitext;
  path_relpath := relpath;
  (* libm is outside the simulation: a first-order stand-in *)
  np_exp := fun x => f64_add (f64_of_Z 1) x;
  cast_hw := hw_x86
|}.

Definition start (w : gmap string file) : state env := Build_state env w [].

(** The [float32] 20.96875 (671/32), a temperature every model accepts. *)
Definition sample_temperature : spec_float := S754_finite false 10993664 (-19).

(** A one-cell grid holding the [float32] [t]. *)
Definition one_cell (t : spec_float) : ndarray spec_float :=
  {| shape := (1, 1); rows := [[t]] |}.

Definition no_metadata : metadata := {|
  original_file := "a.jpg";
  conversion_time := "";
  file_size := 0;
  data_type := "R-JPEG";
  sdk_version := "";
  temperature_unit := "";
  detected_resolution := (1, 1);
  detected_width := 1;
  detected_height := 1;
  device_model := "M30T";
  data_shape := (1, 1);
  is_real_data := false;
  warning := None
|}.

End Sim.

(** ** Vocabulary of the statements *)

Module Spec.

Import Converter.

(** [b] is [a] shifted right by [k] bits, for a non-negative mantissa: the
    quotient, and no flag raised when no one-bit was dropped. *)
Definition shifted (k : Z) (a b : shr_record) : Prop :=
  0 <= shr_m a ->
  shr_m b = shr_m a / 2 ^ k /\
  (shr_r a = false -> shr_s a = false -> shr_m a mod 2 ^ k = 0 ->
   shr_r b = false /\ shr_s b = false).

(** The last step of [binary_round_aux]. *)
Definition pack (s : bool) (m e : Z) : spec_float :=
  match m with
  | Z0 => S754_zero s
  | Zpos p => if e <=? 104 then S754_finite s p e else S754_infinity s
  | Zneg _ => S754_nan
  end.

(** The magnitude the C conversion keeps of [m * 2^e]. *)
Definition utrunc (m e : Z) : Z :=
  if 0 <=? e then m * 2 ^ e else m / 2 ^ (- e).


(** The temperature read back from a stored raster value. *)
Definition read_back (z : Z) : Q := (inject_Z z / 10)%Q.




(** The cell the specification describes: baseline, hot spot 1 and hot
    spot 2 summed in doubles, narrowed once to [float32]. *)
Definition claimed_cell (E : Env) (width height i j : Z) : spec_float :=
  let center_x := width / 2 in
  let center_y := height / 2 in
  f32_of_f64
    (f64_add
       (f64_add (Converter.gradient height width i j)
          (Converter.hot_spot E 60 50 (Converter.distance1 center_x center_y j i)))
       (Converter.hot_spot E 45 30 (Converter.distance2 center_x center_y j i))).

(** One turn of the job loop of [batch_convert], without the counters: the
    state it leaves and whether the job returned [True]. *)
Definition job_result (E : Env) (self : converter) (input_dir output_dir : string)
    (rjpeg_file : string) (st : state E) : state E * bool :=
  match Converter.job E self input_dir output_dir rjpeg_file st with
  | (st', Ok b) => (st', b)
  | (st', Raise e) => (fst (logger E (ERROR (FileFailed rjpeg_file e)) st'), false)
  end.

(** What the jobs return, one after the other, each from the state the
    one before left. *)
Fixpoint job_outcomes (E : Env) (self : converter) (input_dir output_dir : string)
    (rjpeg_files : list string) (st : state E) : list bool :=
  match rjpeg_files with
  | [] => []
  | rjpeg_file :: rest =>
      let '(st', b) := job_result E self input_dir output_dir rjpeg_file st in
      b :: job_outcomes E self input_dir output_dir rest st'
  end.

(** How many of the outcomes are [b]. *)
Definition count (b : bool) (outcomes : list bool) : Z :=
  Z.of_nat (List.length (List.filter (Bool.eqb b) outcomes)).

(** The array has [h] rows of [w] cells. *)
Definition has_dims {A} (h w : Z) (a : ndarray A) : Prop :=
  shape a = (h, w) /\
  List.length (rows a) = Z.to_nat h /\
  Forall (fun row => List.length row = Z.to_nat w) (rows a).

(** The calls of [save_temperature_tiff] that can raise, in the order the
    method makes them: the directory creation, the wrapping of the scaled
    array, the write. *)
Definition makedirs_step (E : Env) (output_path : string) (w : world E)
  : world E * result unit :=
  if string_dec (path_dirname E output_path) ""
  then (w, Ok tt)
  else os_makedirs E (path_dirname E output_path) w.

Definition write_step (E : Env) (data : ndarray spec_float) (md : metadata)
    (output_path compression : string) (w : world E) : world E * result unit :=
  pil_save E {| im_mode := "I;16"; im_pixels := Converter.temp_scaled E data |}
    output_path compression (Converter.tiff_tags E md (now_strftime E w)) w.

(** No call of the encoder raises. *)
Definition encode_succeeds (E : Env) (data : ndarray spec_float) (md : metadata)
    (output_path compression : string) (w : world E) : bool :=
  let '(w1, r1) := makedirs_step E output_path w in
  is_ok r1
  && is_ok (pil_fromarray_check E (Converter.temp_scaled E data))
  && is_ok (snd (write_step E data md output_path compression w1)).

(** The file system the encoder leaves: the write is reached only when the
    two calls before it returned. *)
Definition encode_world (E : Env) (data : ndarray spec_float) (md : metadata)
    (output_path compression : string) (w : world E) : world E :=
  let '(w1, r1) := makedirs_step E output_path w in
  if is_ok r1 && is_ok (pil_fromarray_check E (Converter.temp_scaled E data))
  then fst (write_step E data md output_path compression w1)
  else w1.

End Spec.
Import Spec.
Import Converter.

(** ** The constructor: [_find_sdk_library], [_init_sdk], [__init__] *)

Module Startup.

Import Converter.

(** What the constructor needs of the host besides [Env]: the platform, the
    outcome of [import ctypes], the working directory, [os.path.exists] and
    [cdll.LoadLibrary]. *)
Record Host (E : Env) : Type := {
  win32 : bool;
  ctypes_available : bool;
  os_getcwd : world E -> string;
  os_path_exists : world E -> string -> bool;
  LoadLibrary : world E -> string -> result Z
}.
Arguments win32 {E} _.
Arguments ctypes_available {E} _.
Arguments os_getcwd {E} _ _.
Arguments os_path_exists {E} _ _ _.
Arguments LoadLibrary {E} _ _ _.

(** What [_init_sdk] sends to the logger. *)
Inductive startup_message : Type :=
| CtypesMissing
| SdkNotFound
| SdkDownloadHint
| SdkDownloadUrl
| SdkLoaded (path : string)
| SdkLoadFailed (e : exn)
| SdkInstallHint.

Inductive startup_record : Type :=
| S_INFO (m : startup_message)
| S_ERROR (m : startup_message).

Section WithHost.

Context {E : Env} (H : Host E).

(** The default places, in the order of the source. *)
Definition possible_paths (w : world E) : list string :=
  let cwd := os_getcwd H w in
  if win32 H then
    let lib_name := "libdirp.dll"%string in
    [ path_join E cwd lib_name;
      path_join E (path_join E cwd "dji_thermal_sdk") lib_name;
      path_join E
        (path_join E
           (path_join E
              (path_join E (path_join E (path_join E cwd "sdk") "tsdk-core") "lib")
              "windows")
           "release_x64")
        lib_name;
      lib_name ]
  else
    let lib_name := "libdirp.so"%string in
    [ path_join E cwd lib_name;
      path_join E (path_join E cwd "dji_thermal_sdk") lib_name;
      path_join E
        (path_join E
           (path_join E
              (path_join E (path_join E (path_join E cwd "sdk") "tsdk-core") "lib")
              "linux")
           "release_x64")
        lib_name;
      ("/usr/local/lib/" +:+ lib_name)%string ].

(** [if self.sdk_path:] holds for a non-empty string only. *)
Definition truthy (sdk_path : option string) : option string :=
  match sdk_path with
  | Some p => if string_dec p "" then None else Some p
  | None => None
  end.

(** [_find_sdk_library]; [sdk_path] is the attribute [self.sdk_path]. *)
Definition _find_sdk_library (sdk_path : option string) (w : world E)
  : option string :=
  let paths :=
    match truthy sdk_path with
    | Some p => p :: possible_paths w
    | None => possible_paths w
    end in
  List.find (os_path_exists H w) paths.

(** [_init_sdk]: the log lines it writes and the handle it stores, [None]
    when it returns early or [LoadLibrary] raises. *)
Definition _init_sdk (sdk_path : option string) (w : world E)
  : list startup_record * option Z :=
  if negb (ctypes_available H) then ([S_ERROR CtypesMissing], None)
  else
    match _find_sdk_library sdk_path w with
    | None =>
        ([S_ERROR SdkNotFound; S_INFO SdkDownloadHint; S_INFO SdkDownloadUrl], None)
    | Some sdk_lib_path =>
        match LoadLibrary H w sdk_lib_path with
        | Ok handle => ([S_INFO (SdkLoaded sdk_lib_path)], Some handle)
        | Raise e => ([S_ERROR (SdkLoadFailed e); S_INFO SdkInstallHint], None)
        end
    end.

(** [DJIThermalConverter.__init__]: the attributes are set to their
    defaults, then [_init_sdk] may set the handle and the flag. *)
Definition __init__ (sdk_path : option string) (w : world E)
  : list startup_record * converter :=
  let '(lines, handle) := _init_sdk sdk_path w in
  (lines,
   {| sdk_handle := handle;
      is_initialized := match handle with Some _ => true | None => false end;
      device_configs := the_device_configs;
      default_model := "M30T" |}).

End WithHost.

End Startup.

(** ** [Config.is_supported_input_format] and [os.path.splitext] *)

Module Paths.

(** [s.rfind(c)]: the highest index of [c], or -1. *)
Fixpoint rfind_from (c : ascii) (s : string) (i best : Z) : Z :=
  match s with
  | EmptyString => best
  | String a s' => rfind_from c s' (i + 1) (if ascii_dec a c then i else best)
  end.

Definition rfind (c : ascii) (s : string) : Z := rfind_from c s 0 (-1).

(** [s[:n]] and [s[n:]] for [0 <= n]. *)
Fixpoint str_take (n : nat) (s : string) : string :=
  match n, s with
  | O, _ => EmptyString
  | S n', EmptyString => EmptyString
  | S n', String a s' => String a (str_take n' s')
  end.

Fixpoint str_drop (n : nat) (s : string) : string :=
  match n, s with
  | O, _ => s
  | S n', EmptyString => EmptyString
  | S n', String a s' => str_drop n' s'
  end.

(** The [while] loop of [genericpath._splitext]: some character of
    [p[lo:hi]] is not a dot. *)
Definition has_non_dot (p : string) (lo hi : Z) : bool :=
  existsb (fun k => match String.get (Z.to_nat k) p with
                    | Some a => if ascii_dec a "." then false else true
                    | None => true
                    end)
    (seqZ lo (hi - lo)).

(** [posixpath.splitext]: the extension starts at the last dot of the last
    component, unless that component has only dots before it. *)
Definition splitext (p : string) : string * string :=
  let sepIndex := rfind "/" p in
  let dotIndex := rfind "." p in
  if (sepIndex <? dotIndex) && has_non_dot p (sepIndex + 1) dotIndex
  then (str_take (Z.to_nat dotIndex) p, str_drop (Z.to_nat dotIndex) p)
  else (p, EmptyString).

(** [Config.SUPPORTED_INPUT_FORMATS] *)
Definition SUPPORTED_INPUT_FORMATS : list string :=
  [".jpg"; ".jpeg"; ".JPG"; ".JPEG"]%string.

(** [Config.is_supported_input_format] *)
Definition is_supported_input_format (filename : string) : bool :=
  let '(_, ext) := splitext filename in
  bool_decide (lower ext ∈ map lower SUPPORTED_INPUT_FORMATS).

(** The test of the discovery loop of [batch_convert]:
    [file.lower().endswith(('.jpg', '.jpeg'))]. *)
Definition batch_accepts (file : string) : bool :=
  endswith ".jpg" (lower file) || endswith ".jpeg" (lower file).

End Paths.

(** ** Closed forms of the loops *)

Module Pure.

Import Converter.

(** What [_is_likely_rjpeg] answers, read off the file system. *)
Definition likely (E : Env) (str_upper : string -> string) (w : world E)
    (file_path : string) : bool :=
  match os_getsize E w file_path with
  | Raise _ => false
  | Ok file_size =>
      if file_size <? 100000 then false
      else
        let filename := str_upper (path_basename E file_path) in
        if contains "DJI" filename || contains "_T" filename || contains "_R" filename
        then true
        else is_ok (read_bytes E w file_path)
  end.

(** The candidates of one directory. *)
Definition candidates_in (E : Env) (str_upper : string -> string) (w : world E)
    (entry : string * list string) : list string :=
  let '(root, files) := entry in
  List.filter (likely E str_upper w)
    (map (path_join E root) (List.filter Paths.batch_accepts files)).

(** The candidates of a walk. *)
Definition candidates (E : Env) (str_upper : string -> string) (w : world E)
    (recursive : bool) (walk : list (string * list string)) : list string :=
  List.concat (map (candidates_in E str_upper w)
                 (if recursive then walk else take 1 walk)).

(** The resolution [_detect_image_resolution] settles on. *)
Definition detected (E : Env) (self : converter) (w : world E) (path : string)
  : option (Z * Z) :=
  match pil_open_size E w path with
  | Ok size => Some size
  | Raise _ => resolution <$> (device_configs self !! default_model self)
  end.

(** The synthetic grid, cell by cell: the gradient narrowed to [float32],
    widened again, added to the two hot spots, narrowed on the store. *)
Definition synthetic_cell (E : Env) (width height x y : Z) : spec_float :=
  f32_of_f64
    (f64_add (f64_of_f32 (f32_of_f64 (gradient height width y x)))
       (hot_spots E width height x y)).

Definition synthetic_grid (E : Env) (width height : Z) : ndarray spec_float :=
  {| shape := (height, width);
     rows := map (fun y => map (fun x => synthetic_cell E width height x y)
                             (seqZ 0 width))
               (seqZ 0 height) |}.

(** A method run that leaves the file system as it was and returns [r]. *)
Definition reads_as {E : Env} {A} (c : M E A) (st : state E) (r : result A) : Prop :=
  fs E (fst (c st)) = fs E st /\ snd (c st) = r.

(** The metadata dictionary of a successful extraction. *)
Definition metadata_for (E : Env) (self : converter) (w : world E)
    (rjpeg_path rjpeg_data : string) (size : Z * Z) (data : ndarray spec_float)
  : metadata :=
  {| original_file := path_basename E rjpeg_path;
     conversion_time := now_isoformat E w;
     file_size := Z.of_nat (String.length rjpeg_data);
     data_type := "R-JPEG";
     sdk_version := if is_initialized self then "DJI Thermal SDK v1.4"
                    else "Mock Data (SDK Not Installed)";
     temperature_unit := "Celsius (0.1°C precision)";
     detected_resolution := size;
     detected_width := fst size;
     detected_height := snd size;
     device_model := default_model self;
     data_shape := shape data;
     is_real_data := is_initialized self;
     warning := if is_initialized self then None
                else Some "此为模拟数据，非真实温度值" |}.

(** What [extract_temperature_data] returns, read off the file system. *)
Definition extract_outcome (E : Env) (self : converter) (w : world E)
    (rjpeg_path : string) : result (ndarray spec_float * metadata) :=
  match detected E self w rjpeg_path with
  | None => Raise KeyError
  | Some (width, height) =>
      match read_bytes E w rjpeg_path with
      | Raise e => Raise e
      | Ok rjpeg_data =>
          if (height <? 0) || (width <? 0) then Raise ValueError
          else
            let data := synthetic_grid E width height in
            Ok (data, metadata_for E self w rjpeg_path rjpeg_data (width, height) data)
      end
  end.

End Pure.

(** ** More concrete runs *)

Module Runs.

Import Converter.

(** A directory holding one source image of 2 by 1 pixels. *)
Definition jpeg_world : gmap string Sim.file :=
  <["in/DJI_0001_T.jpg"%string := Sim.SourceImage (2, 1) "raw"]> ∅.

(** [Sim.env] with a disk that fails every write after starting it. *)
Definition full_disk_env : Env := {|
  world := world Sim.env;
  pil_open_size := pil_open_size Sim.env;
  read_bytes := read_bytes Sim.env;
  os_getsize := os_getsize Sim.env;
  os_walk := os_walk Sim.env;
  os_makedirs := os_makedirs Sim.env;
  pil_fromarray_check := pil_fromarray_check Sim.env;
  pil_save := fun img path compression tags w =>
    (<[path := Sim.PlainFile "II*"]> w, Raise OSError);
  json_dumps := json_dumps Sim.env;
  now_isoformat := now_isoformat Sim.env;
  now_strftime := now_strftime Sim.env;
  path_basename := path_basename Sim.env;
  path_dirname := path_dirname Sim.env;
  path_join := path_join Sim.env;
  path_splitext := path_splitext Sim.env;
  path_relpath := path_relpath Sim.env;
  np_exp := np_exp Sim.env;
  cast_hw := cast_hw Sim.env
|}.

(** [exp] as glibc returns it at the two arguments the generator needs for
    row 8, column 9 of a 10 by 10 grid: [exp(-0x1.999999999999ap-4)] is
    [0x1.cf46d99d52b3ap-1] and [exp(-0x1.384312515a1e2p+2)] is
    [0x1.f2544f0d8aba0p-8]. *)
Definition exp_at_8_9 (x : spec_float) : spec_float :=
  match x with
  | S754_finite true m e =>
      if (m =? 7205759403792794)%positive && (e =? -56)
      then S754_finite false 8150050917395258 (-53)
      else if (m =? 5493371167941090)%positive && (e =? -50)
      then S754_finite false 8766702306765728 (-60)
      else np_exp Sim.env x
  | _ => np_exp Sim.env x
  end.

(** [Sim.env] with that [exp]. *)
Definition libm_env : Env := {|
  world := world Sim.env;
  pil_open_size := pil_open_size Sim.env;
  read_bytes := read_bytes Sim.env;
  os_getsize := os_getsize Sim.env;
  os_walk := os_walk Sim.env;
  os_makedirs := os_makedirs Sim.env;
  pil_fromarray_check := pil_fromarray_check Sim.env;
  pil_save := pil_save Sim.env;
  json_dumps := json_dumps Sim.env;
  now_isoformat := now_isoformat Sim.env;
  now_strftime := now_strftime Sim.env;
  path_basename := path_basename Sim.env;
  path_dirname := path_dirname Sim.env;
  path_join := path_join Sim.env;
  path_splitext := path_splitext Sim.env;
  path_relpath := path_relpath Sim.env;
  np_exp := exp_at_8_9;
  cast_hw := cast_hw Sim.env
|}.


(** The [float32] 20.5. *)
Definition twenty_and_a_half : spec_float := S754_finite false 10747904 (-19).

End Runs.

(** * Proofs *)

(** ** Rounding of [float32] products *)

Lemma digits2_pos_size (p : positive) : digits2_pos p = Pos.size p.
Proof. induction p; simpl; congruence. Qed.

Lemma digits2_bounds (p : positive) :
  2 ^ (Zpos (digits2_pos p) - 1) <= Zpos p < 2 ^ Zpos (digits2_pos p).
Proof.
  rewrite digits2_pos_size.
  pose proof (Pos.size_gt p) as Hgt.
  pose proof (Pos.size_le p) as Hle.
  apply Pos2Z.pos_lt_pos in Hgt. apply Pos2Z.pos_le_pos in Hle.
  rewrite Pos2Z.inj_pow in Hgt, Hle.
  assert (Hp : 2 ^ Zpos (Pos.size p) = 2 * 2 ^ (Zpos (Pos.size p) - 1))
    by (rewrite <- Z.pow_succ_r by lia; f_equal; lia).
  lia.
Qed.

(** One right shift halves a non-negative mantissa and records whether a one
    was dropped. *)
Lemma shr_1_spec (m : Z) (r s : bool) :
  0 <= m ->
  shr_m (shr_1 (Build_shr_record m r s)) = m / 2 /\
  (r = false -> s = false -> m mod 2 = 0 ->
   shr_r (shr_1 (Build_shr_record m r s)) = false /\
   shr_s (shr_1 (Build_shr_record m r s)) = false).
Proof.
  intros Hm. destruct m as [|p|p]; [| |lia].
  - cbn. split; [reflexivity|]. intros -> -> _. auto.
  - destruct p as [p|p|]; cbn [shr_1 shr_m shr_r shr_s orb].
    + split; [Z.to_euclidean_division_equations; lia|].
      intros _ _ H. Z.to_euclidean_division_equations; lia.
    + split; [Z.to_euclidean_division_equations; lia|].
      intros -> -> _. auto.
    + split; [reflexivity|]. intros _ _ H. discriminate.
Qed.


Lemma shifted_1 (a : shr_record) : shifted 1 a (shr_1 a).
Proof.
  destruct a as [m r s]. intros Hm. cbn [shr_m shr_r shr_s] in *.
  change (2 ^ 1) with 2. apply shr_1_spec; assumption.
Qed.

Lemma shifted_trans (j k : Z) (a b c : shr_record) :
  0 <= j -> 0 <= k -> shifted j a b -> shifted k b c -> shifted (j + k) a c.
Proof.
  intros Hj Hk Hab Hbc Ha.
  destruct (Hab Ha) as [Hm1 He1].
  assert (Hb : 0 <= shr_m b) by (rewrite Hm1; apply Z.div_pos; lia).
  destruct (Hbc Hb) as [Hm2 He2].
  assert (Hpj : 0 < 2 ^ j) by lia. assert (Hpk : 0 < 2 ^ k) by lia.
  split.
  - rewrite Hm2, Hm1, Z.pow_add_r, Z.div_div by lia. reflexivity.
  - intros Hr Hs Hmod.
    rewrite Z.pow_add_r in Hmod by lia.
    rewrite Z.rem_mul_r in Hmod by lia.
    pose proof (Z.mod_pos_bound (shr_m a) (2 ^ j) Hpj).
    pose proof (Z.mod_pos_bound (shr_m a / 2 ^ j) (2 ^ k) Hpk).
    assert (shr_m a mod 2 ^ j = 0 /\ (shr_m a / 2 ^ j) mod 2 ^ k = 0) as [H1 H2] by nia.
    destruct (He1 Hr Hs H1) as [Hr1 Hs1].
    apply He2; [assumption..|]. rewrite Hm1. exact H2.
Qed.

Lemma iter_pos_shifted (p : positive) (a : shr_record) :
  shifted (Zpos p) a (SpecFloat.iter_pos shr_1 p a).
Proof.
  revert a. induction p as [p IH|p IH|]; intros a; simpl.
  - replace (Zpos p~1) with (1 + (Zpos p + Zpos p)) by lia.
    eapply shifted_trans; [lia|lia|apply shifted_1|].
    eapply shifted_trans; [lia|lia|apply IH|apply IH].
  - replace (Zpos p~0) with (Zpos p + Zpos p) by lia.
    eapply shifted_trans; [lia|lia|apply IH|apply IH].
  - apply shifted_1.
Qed.


Lemma Zdigits2_small (m : Z) : 0 <= m < 2 ^ 24 -> Zdigits2 m <= 24.
Proof.
  intros [H0 H1]. destruct m as [|p|p]; cbn [Zdigits2]; [lia| |lia].
  pose proof (digits2_bounds p) as [Hlo _].
  destruct (Z_le_gt_dec (Zpos (digits2_pos p)) 24) as [|Hgt]; [assumption|exfalso].
  assert (2 ^ 24 <= 2 ^ (Zpos (digits2_pos p) - 1)) by (apply Z.pow_le_mono_r; lia).
  lia.
Qed.

Lemma shr_fexp_exact_small (m e : Z) :
  0 <= m < 2 ^ 24 -> -149 <= e ->
  shr_fexp 24 128 m e loc_Exact = (Build_shr_record m false false, e).
Proof.
  intros Hm He. unfold shr_fexp, fexp, emin, shr. cbn [shr_record_of_loc].
  pose proof (Zdigits2_small m Hm).
  destruct (Z.max (Zdigits2 m + e - 24) (3 - 128 - 24) - e) eqn:Hk; try reflexivity.
  lia.
Qed.

Lemma round_nearest_even_bounds (m : Z) (l : location) :
  m <= round_nearest_even m l <= m + 1 /\
  (l = loc_Exact -> round_nearest_even m l = m).
Proof.
  destruct l as [|[| |]]; cbn; try destruct (Z.even m); split; try lia; try reflexivity;
    intros; discriminate.
Qed.

Lemma binary_round_aux_shift (M : positive) (E : Z) :
  let e' := fexp 24 128 (Zpos (digits2_pos M) + E) in
  let k := e' - E in
  0 < k ->
  exists m2,
    Zpos M / 2 ^ k <= m2 <= Zpos M / 2 ^ k + 1 /\
    (Zpos M mod 2 ^ k = 0 -> m2 = Zpos M / 2 ^ k) /\
    forall s, binary_round_aux 24 128 s (Zpos M) E loc_Exact =
      if m2 =? 2 ^ 24 then pack s (2 ^ 23) (e' + 1) else pack s m2 e'.
Proof.
  intros e' k Hk.
  unfold binary_round_aux.
  unfold shr_fexp at 1. cbn [Zdigits2 shr_record_of_loc].
  fold e'. fold k. unfold shr.
  destruct k as [|kp|kp] eqn:Hkp; try lia.
  pose proof (iter_pos_shifted kp (Build_shr_record (Zpos M) false false)) as Hsh.
  destruct (Hsh ltac:(cbn; lia)) as [Hm1 Hex]. cbn [shr_m shr_r shr_s] in Hm1, Hex.
  set (mrs := SpecFloat.iter_pos shr_1 kp _) in *.
  pose proof (round_nearest_even_bounds (shr_m mrs) (loc_of_shr_record mrs)) as [Hb Hexact].
  set (m2 := round_nearest_even (shr_m mrs) (loc_of_shr_record mrs)) in *.
  exists m2. rewrite <- Hm1.
  split; [exact Hb|]. split.
  { intros Hmod. apply Hexact. destruct (Hex eq_refl eq_refl Hmod) as [Hr Hs].
    destruct mrs as [mm rr ss]. cbn in Hr, Hs. subst. reflexivity. }
  (* the mantissa after the first shift has at most 24 bits *)
  pose proof (digits2_bounds M) as [Hlo Hhi].
  assert (He' : -149 <= e' /\ Zpos (digits2_pos M) + E - 24 <= e')
    by (unfold e', fexp, emin; lia).
  assert (Hm1lt : shr_m mrs < 2 ^ 24).
  { rewrite Hm1. apply Z.div_lt_upper_bound; [lia|].
    rewrite <- Z.pow_add_r by lia.
    eapply Z.lt_le_trans; [exact Hhi|]. apply Z.pow_le_mono_r; lia. }
  assert (Hm1ge : 0 <= shr_m mrs) by (rewrite Hm1; apply Z.div_pos; lia).
  replace (E + Zpos kp) with e' by lia. intros s.
  destruct (Z.eqb_spec m2 (2 ^ 24)) as [Heq|Hne].
  - rewrite Heq. unfold shr_fexp, fexp, emin.
    change (Zdigits2 (2 ^ 24)) with 25.
    replace (Z.max (25 + e' - 24) (3 - 128 - 24) - e') with 1 by lia.
    cbn. replace (e' + 1 <=? 128 - 24) with (e' + 1 <=? 104) by reflexivity.
    reflexivity.
  - rewrite shr_fexp_exact_small by lia. cbn [shr_m].
    unfold pack. destruct m2; try reflexivity.
Qed.


Lemma SFtrunc_pack (s : bool) (m e z : Z) :
  0 <= m -> SFtrunc (pack s m e) = Some z -> z = cond_Zopp s (utrunc m e).
Proof.
  intros Hm. unfold pack, utrunc. destruct m as [|p|p]; [| |lia].
  - cbn. intros [= <-]. destruct (0 <=? e), s; reflexivity.
  - destruct (e <=? 104); cbn; [|discriminate]. intros [= <-]. reflexivity.
Qed.

Lemma utrunc_carry (e : Z) : utrunc (2 ^ 23) (e + 1) = utrunc (2 ^ 24) e.
Proof.
  unfold utrunc.
  destruct (Z.leb_spec 0 (e + 1)), (Z.leb_spec 0 e); try lia.
  - rewrite Z.pow_add_r by lia. lia.
  - assert (e = -1) by lia. subst. reflexivity.
  - replace (- e) with (1 + - (e + 1)) by lia.
    rewrite Z.pow_add_r by lia.
    rewrite <- Z.div_div by lia. reflexivity.
Qed.

Lemma pow2_lt_digits (n : Z) (p : positive) :
  0 <= n -> 2 ^ n <= Zpos p -> n < Zpos (digits2_pos p).
Proof.
  intros Hn Hp. pose proof (digits2_bounds p) as [_ Hhi].
  apply (Z.pow_lt_mono_r_iff 2); lia.
Qed.

(** What [t * 10] is for a finite [float32] [t = (-1)^s * m * 2^e]: the
    product [M = m * 10 * 2^20] at exponent [e - 20] loses [k > 0] bits. *)
Lemma mul_ten_spec (m : positive) (e : Z) :
  bounded 24 128 m e = true ->
  let M := Zpos (m * 10485760) in
  exists m2 e',
    let k := e' - (e - 20) in
    0 < k /\ -149 <= e' /\
    (-149 < e' -> 2 ^ 23 <= M / 2 ^ k) /\
    M / 2 ^ k <= m2 <= M / 2 ^ k + 1 /\
    (M mod 2 ^ k = 0 -> m2 = M / 2 ^ k) /\
    (forall s z, SFtrunc (f32_mul (S754_finite s m e) f32_ten) = Some z ->
                 z = cond_Zopp s (utrunc m2 e')) /\
    (e' <= 103 -> forall s, SFtrunc (f32_mul (S754_finite s m e) f32_ten)
                            = Some (cond_Zopp s (utrunc m2 e'))).
Proof.
  intros Hb M.
  unfold bounded, canonical_mantissa, fexp, emin in Hb.
  apply andb_prop in Hb as [Hc He]. apply Z.eqb_eq in Hc. apply Z.leb_le in He.
  pose proof (digits2_bounds m) as [Hmlo Hmhi].
  pose proof (digits2_bounds (m * 10485760)) as [HMlo HMhi].
  set (d := Zpos (digits2_pos (m * 10485760))) in *.
  set (e' := fexp 24 128 (d + (e - 20))).
  assert (HM : M = Zpos m * 2 ^ 20 * 10) by (unfold M; lia).
  assert (Hd : Zpos (digits2_pos m) + 23 <= d).
  { assert (2 ^ (Zpos (digits2_pos m) + 22) <= Zpos (m * 10485760)).
    { replace (Zpos (digits2_pos m) + 22) with ((Zpos (digits2_pos m) - 1) + 23) by lia.
      rewrite Z.pow_add_r by lia. change (2 ^ 23) with 8388608. lia. }
    assert (H0 : 0 <= Zpos (digits2_pos m) + 22) by lia.
    pose proof (pow2_lt_digits _ _ H0 H). unfold d. lia. }
  assert (He' : -149 <= e' /\ d + (e - 20) - 24 <= e' /\
                (e' = -149 \/ e' = d + (e - 20) - 24))
    by (unfold e', fexp, emin; lia).
  assert (Hk : 0 < e' - (e - 20)) by lia.
  destruct (binary_round_aux_shift (m * 10485760) (e - 20) Hk) as (m2 & Hm2 & Hex & Hres).
  fold d in Hm2, Hex, Hres. fold e' in Hm2, Hex, Hres. fold M in Hm2, Hex.
  assert (Hm1 : 0 <= M / 2 ^ (e' - (e - 20))) by (apply Z.div_pos; lia).
  assert (Htr : forall s, f32_mul (S754_finite s m e) f32_ten =
                  if m2 =? 2 ^ 24 then pack s (2 ^ 23) (e' + 1) else pack s m2 e').
  { intros s. rewrite <- Hres. unfold f32_mul, f32_ten, SFmul.
    rewrite xorb_false_r. reflexivity. }
  exists m2, e'. cbv zeta.
  split; [exact Hk|]. split; [lia|]. split.
  { intros Hn. assert (Hke : e' - (e - 20) = d - 24) by lia. rewrite Hke.
    apply Z.div_le_lower_bound; [lia|].
    rewrite <- Z.pow_add_r by lia. replace (d - 24 + 23) with (d - 1) by lia.
    unfold M. exact HMlo. }
  split; [exact Hm2|]. split; [exact Hex|]. split.
  - intros s z. rewrite Htr.
    destruct (Z.eqb_spec m2 (2 ^ 24)) as [Heq|Hne]; intros Hz.
    + apply SFtrunc_pack in Hz; [|lia]. rewrite utrunc_carry in Hz.
      rewrite Heq. exact Hz.
    + apply SFtrunc_pack in Hz; [exact Hz|lia].
  - intros Hle s. rewrite Htr.
    destruct (Z.eqb_spec m2 (2 ^ 24)) as [Heq|Hne].
    + rewrite Heq, <- utrunc_carry. unfold pack. change (2 ^ 23) with 8388608.
      cbn match. destruct (Z.leb_spec (e' + 1) 104); [|lia]. reflexivity.
    + unfold pack, utrunc. destruct m2 as [|p|p]; [| |lia].
      * cbn. destruct (0 <=? e'), s; reflexivity.
      * destruct (Z.leb_spec e' 104); [|lia]. reflexivity.
Qed.

Lemma cond_Zopp_abs (s : bool) (u : Z) : 0 <= u -> Z.abs (cond_Zopp s u) = u.
Proof. unfold cond_Zopp. destruct s; lia. Qed.

Lemma utrunc_nonneg (m e : Z) : 0 <= m -> 0 <= utrunc m e.
Proof.
  intros Hm. unfold utrunc. destruct (Z.leb_spec 0 e).
  - apply Z.mul_nonneg_nonneg; [lia|apply Z.pow_nonneg; lia].
  - apply Z.div_pos; [lia|apply Z.pow_pos_nonneg; lia].
Qed.

(** The stored integer is less than one away from ten times the
    temperature: [(|z| - 1) * 2^(20-e) < m * 10 * 2^20 < (|z| + 1) * 2^(20-e)]. *)
Lemma mul_ten_error (s : bool) (m : positive) (e z : Z) :
  bounded 24 128 m e = true ->
  SFtrunc (f32_mul (S754_finite s m e) f32_ten) = Some z ->
  Z.abs z <= 32768 ->
  e < 20 /\
  (Z.abs z - 1) * 2 ^ (20 - e) < Zpos (m * 10485760) < (Z.abs z + 1) * 2 ^ (20 - e).
Proof.
  intros Hb Hz Hr.
  destruct (mul_ten_spec m e Hb) as (m2 & e' & Hk & He' & Hn & Hm2 & Hex & Htr & _).
  apply Htr in Hz. clear Htr.
  set (M := Zpos (m * 10485760)) in *. set (k := e' - (e - 20)) in *.
  assert (HK : 0 < 2 ^ k) by lia.
  assert (Hm1 : 0 <= M / 2 ^ k) by (apply Z.div_pos; lia).
  assert (Hu : 0 <= utrunc m2 e') by (apply utrunc_nonneg; lia).
  rewrite Hz, cond_Zopp_abs in * by exact Hu.
  assert (Hneg : e' < 0).
  { destruct (Z_lt_ge_dec e' 0) as [|Hge]; [assumption|exfalso].
    unfold utrunc in Hr. destruct (Z.leb_spec 0 e'); [|lia].
    assert (1 <= 2 ^ e') by lia. specialize (Hn ltac:(lia)).
    change (2 ^ 23) with 8388608 in Hn. nia. }
  unfold utrunc in *. destruct (Z.leb_spec 0 e'); [lia|].
  set (a := - e') in *.
  assert (HA : 0 < 2 ^ a) by lia.
  replace (20 - e) with (a + k) by (unfold a, k; lia).
  rewrite Z.pow_add_r by (unfold a, k; lia).
  split; [unfold k in Hk; unfold a in *; lia|].
  set (u := m2 / 2 ^ a) in *.
  pose proof (Z.div_mod m2 (2 ^ a) ltac:(lia)) as Hdu.
  pose proof (Z.mod_pos_bound m2 (2 ^ a) HA) as Hmu. fold u in Hdu.
  pose proof (Z.div_mod M (2 ^ k) ltac:(lia)) as HdM.
  pose proof (Z.mod_pos_bound M (2 ^ k) HK) as HmM.
  set (m1 := M / 2 ^ k) in *. set (A := 2 ^ a) in *. set (K := 2 ^ k) in *.
  split.
  - destruct (Z.eq_dec (M mod K) 0) as [H0|H0].
    + rewrite (Hex H0) in *. nia.
    + assert (u * A - 1 <= m1) by lia. nia.
  - assert (m1 + 1 <= (u + 1) * A) by lia. nia.
Qed.

(** Rounding never crosses an integer: when ten times the temperature is at
    most the integer [B], so is what is stored. *)
Lemma mul_ten_bound (s : bool) (m : positive) (e B : Z) :
  bounded 24 128 m e = true ->
  0 <= B < 2 ^ 23 -> e < 20 ->
  Zpos (m * 10485760) <= B * 2 ^ (20 - e) ->
  exists z, SFtrunc (f32_mul (S754_finite s m e) f32_ten) = Some z /\ Z.abs z <= B.
Proof.
  intros Hb HB He HMB.
  destruct (mul_ten_spec m e Hb) as (m2 & e' & Hk & He' & Hn & Hm2 & Hex & _ & Htr).
  set (M := Zpos (m * 10485760)) in *. set (k := e' - (e - 20)) in *.
  assert (HK : 0 < 2 ^ k) by lia.
  pose proof (Z.div_mod M (2 ^ k) ltac:(lia)) as HdM.
  pose proof (Z.mod_pos_bound M (2 ^ k) HK) as HmM.
  assert (Hneg : e' < 0).
  { destruct (Z.eq_dec e' (-149)) as [|Hne]; [lia|]. specialize (Hn ltac:(lia)).
    destruct (Z_lt_ge_dec e' 0) as [|Hge]; [assumption|exfalso].
    assert (Hle : 2 ^ (20 - e) <= 2 ^ k) by (apply Z.pow_le_mono_r; unfold k; lia).
    assert (0 < 2 ^ (20 - e)) by lia.
    change (2 ^ 23) with 8388608 in *. nia. }
  exists (cond_Zopp s (utrunc m2 e')). split; [apply Htr; lia|].
  assert (Hm1 : 0 <= M / 2 ^ k) by (apply Z.div_pos; lia).
  rewrite cond_Zopp_abs by (apply utrunc_nonneg; lia).
  unfold utrunc. destruct (Z.leb_spec 0 e'); [lia|].
  set (a := - e') in *.
  assert (HA : 0 < 2 ^ a) by lia.
  replace (20 - e) with (a + k) in HMB by (unfold a, k; lia).
  rewrite Z.pow_add_r in HMB by (unfold a, k; lia).
  set (m1 := M / 2 ^ k) in *. set (A := 2 ^ a) in *. set (K := 2 ^ k) in *.
  assert (Hm2B : m2 <= B * A).
  { destruct (Z.eq_dec (M mod K) 0) as [H0|H0].
    - rewrite (Hex H0). nia.
    - assert (m1 < B * A) by nia. lia. }
  apply Z.div_le_upper_bound; [lia|]. lia.
Qed.

Lemma Qpow2_inject (n : Z) : 0 <= n -> (inject_Z (2 ^ n) == (2 # 1) ^ n)%Q.
Proof. intros Hn. apply (Zpower_Qpower 2 n Hn). Qed.

Lemma SF2Q_scale (s : bool) (m : positive) (e p : Z) :
  0 <= p -> 0 <= p + e ->
  (SF2Q (S754_finite s m e) * inject_Z (2 ^ p)
   == inject_Z (cond_Zopp s (Zpos m) * 2 ^ (p + e)))%Q.
Proof.
  intros Hp Hpe. unfold SF2Q.
  rewrite inject_Z_mult, !Qpow2_inject by assumption.
  rewrite (Z.add_comm p e), Qpower_plus by discriminate.
  ring.
Qed.


Lemma Qle_scaled (q : Q) (N P b : Z) :
  0 < P ->
  (q * inject_Z P == inject_Z N)%Q ->
  ((q <= inject_Z b)%Q <-> N <= b * P) /\ ((inject_Z b <= q)%Q <-> b * P <= N).
Proof.
  intros HP Hq.
  assert (HPq : (0 < inject_Z P)%Q) by (change 0%Q with (inject_Z 0); rewrite <- Zlt_Qlt; exact HP).
  split.
  - rewrite <- (Qmult_le_r _ _ (inject_Z P) HPq), Hq, <- inject_Z_mult, <- Zle_Qle.
    reflexivity.
  - rewrite <- (Qmult_le_r _ _ (inject_Z P) HPq), Hq, <- inject_Z_mult, <- Zle_Qle.
    reflexivity.
Qed.

(** ** The raster encoder: scaling *)

Lemma SF2Q_ten_scaled (s : bool) (m : positive) (e : Z) :
  e < 20 ->
  (10 * SF2Q (S754_finite s m e) * inject_Z (2 ^ (20 - e))
   == inject_Z (cond_Zopp s (Zpos (m * 10485760))))%Q.
Proof.
  intros He.
  rewrite <- Qmult_assoc, (SF2Q_scale s m e (20 - e)) by lia.
  replace (20 - e + e) with 20 by lia.
  change 10%Q with (inject_Z 10). rewrite <- inject_Z_mult.
  apply inject_Z_injective. unfold cond_Zopp. destruct s; lia.
Qed.

(** A valid [float32] of magnitude below [2^23] has a negative exponent. *)
Lemma small_float_exponent (s : bool) (m : positive) (e lo hi : Z) :
  bounded 24 128 m e = true ->
  - 2 ^ 23 < lo -> hi < 2 ^ 23 ->
  (inject_Z lo <= SF2Q (S754_finite s m e))%Q ->
  (SF2Q (S754_finite s m e) <= inject_Z hi)%Q ->
  e < 0 /\ lo * 2 ^ (- e) <= cond_Zopp s (Zpos m) <= hi * 2 ^ (- e).
Proof.
  intros Hb Hlo Hhi Hl Hh.
  unfold bounded, canonical_mantissa, fexp, emin in Hb.
  apply andb_prop in Hb as [Hc _]. apply Z.eqb_eq in Hc.
  pose proof (digits2_bounds m) as [Hmlo _].
  destruct (Z_lt_ge_dec e 0) as [He|He].
  - split; [exact He|].
    pose proof (SF2Q_scale s m e (- e) ltac:(lia) ltac:(lia)) as Hq.
    replace (- e + e) with 0 in Hq by lia. rewrite Z.mul_1_r in Hq.
    destruct (Qle_scaled _ _ (2 ^ (- e)) lo ltac:(lia) Hq) as [_ H1].
    destruct (Qle_scaled _ _ (2 ^ (- e)) hi ltac:(lia) Hq) as [H2 _].
    split; [apply H1, Hl | apply H2, Hh].
  - exfalso.
    pose proof (SF2Q_scale s m e 0 ltac:(lia) ltac:(lia)) as Hq.
    rewrite Z.add_0_l in Hq.
    destruct (Qle_scaled _ _ (2 ^ 0) lo ltac:(lia) Hq) as [_ H1].
    destruct (Qle_scaled _ _ (2 ^ 0) hi ltac:(lia) Hq) as [H2 _].
    apply H1 in Hl. apply H2 in Hh.
    assert (Hd : Zpos (digits2_pos m) = 24) by lia. rewrite Hd in Hmlo.
    change (2 ^ (24 - 1)) with 8388608 in Hmlo. change (2 ^ 23) with 8388608 in *.
    assert (1 <= 2 ^ e) by lia.
    unfold cond_Zopp in *. destruct s; nia.
Qed.

Lemma scale_cell_in_range (E : Env) (t : spec_float) (z : Z) :
  SFtrunc (f32_mul t f32_ten) = Some z -> in_int16 z = true -> scale_cell E t = z.
Proof. intros Hz Hr. unfold scale_cell, astype_int16. rewrite Hz, Hr. reflexivity. Qed.




Lemma cell_nd_map {A B} (f : A -> B) (a : ndarray A) (i j : nat) :
  cell (nd_map f a) i j = f <$> cell a i j.
Proof.
  unfold cell, nd_map. cbn [rows]. rewrite list_lookup_fmap.
  destruct (rows a !! i) as [row|]; cbn; [|reflexivity].
  apply list_lookup_fmap.
Qed.









(** ** Detection, encoding and the single-file job *)

Ltac unfold_monad :=
  unfold bind, try_except, ret, raise, reading, writing, logger, lift in *.

Section Encoder.

Context (E : Env).

(** *** Resolution detection *)

(** C8.  For every path and file system, resolution detection returns the
    size read from the image when it opens, and otherwise the native
    resolution of the converter's default model; it never raises and leaves
    the file system as it was. *)
Theorem detect_resolution_never_fails (self : converter) (image_path : string)
    (st : state E) :
  is_Some (device_configs self !! default_model self) ->
  fs E (fst (_detect_image_resolution E self image_path st)) = fs E st /\
  match pil_open_size E (fs E st) image_path with
  | Ok size => snd (_detect_image_resolution E self image_path st) = Ok size
  | Raise _ =>
      exists cfg, device_configs self !! default_model self = Some cfg /\
                  snd (_detect_image_resolution E self image_path st)
                  = Ok (resolution cfg)
  end.
Proof.
  intros [cfg Hcfg]. unfold _detect_image_resolution. unfold_monad.
  destruct (pil_open_size E (fs E st) image_path) as [[w h]|e]; cbn.
  - split; reflexivity.
  - rewrite Hcfg. cbn. split; [reflexivity|]. exists cfg. split; reflexivity.
Qed.

(** *** The encoder and the single-file job never raise *)

Lemma save_temperature_tiff_spec (self : converter) (data : ndarray spec_float)
    (md : metadata) (output_path compression : string) (st : state E) :
  snd (save_temperature_tiff E self data md output_path compression st)
  = Ok (encode_succeeds E data md output_path compression (fs E st)) /\
  fs E (fst (save_temperature_tiff E self data md output_path compression st))
  = encode_world E data md output_path compression (fs E st).
Proof.
  unfold save_temperature_tiff, encode_succeeds, encode_world, makedirs_step,
    write_step, Image_fromarray.
  unfold_monad.
  destruct (string_dec (path_dirname E output_path) "") as [Hd|Hd]; cbn.
  - destruct (pil_fromarray_check E (temp_scaled E data)) as [[]|e]; cbn;
      [|split; reflexivity].
    destruct (pil_save E _ output_path compression _ (fs E st)) as [w2 [[]|e]]; cbn;
      split; reflexivity.
  - destruct (os_makedirs E _ (fs E st)) as [w1 [[]|e]]; cbn; [|split; reflexivity].
    destruct (pil_fromarray_check E (temp_scaled E data)) as [[]|e]; cbn;
      [|split; reflexivity].
    destruct (pil_save E _ output_path compression _ w1) as [w2 [[]|e]]; cbn;
      split; reflexivity.
Qed.

Lemma nd_reduce_ok (f : spec_float -> spec_float -> spec_float)
    (a : ndarray spec_float) :
  is_ok (nd_reduce f a) = negb (bool_decide (List.concat (rows a) = [])).
Proof. unfold nd_reduce. destruct (List.concat (rows a)); reflexivity. Qed.

(** C10.  [save_temperature_tiff] and [convert_rjpeg_to_tiff] never raise:
    each returns a boolean, [True] exactly when no call inside it raised
    (for the encoder: directory creation, array wrapping and the write,
    whatever the compression name; for the job: the extraction, the
    encoder and the min/max of the grid). *)
Theorem conversion_never_raises (self : converter) (data : ndarray spec_float)
    (md : metadata) (input_path output_path compression : string) (st : state E) :
  snd (save_temperature_tiff E self data md output_path compression st)
  = Ok (encode_succeeds E data md output_path compression (fs E st)) /\
  exists b,
    snd (convert_rjpeg_to_tiff E self input_path output_path st) = Ok b /\
    (b = true <->
     exists st1 data1 md1,
       extract_temperature_data E self input_path
         (fst (logger E (INFO (ConvertStart input_path)) st))
       = (st1, Ok (data1, md1)) /\
       encode_succeeds E data1 md1 output_path "lzw" (fs E st1) = true /\
       List.concat (rows data1) <> []).
Proof.
  split; [apply save_temperature_tiff_spec|].
  unfold convert_rjpeg_to_tiff.
  unfold bind at 1, try_except at 1, logger at 1. cbn [fst].
  set (st0 := Build_state E (fs E st) (log E st ++ [INFO (ConvertStart input_path)])).
  change (fst (logger E (INFO (ConvertStart input_path)) st)) with st0.
  unfold bind at 1.
  destruct (extract_temperature_data E self input_path st0)
    as [st1 [[data1 md1]|e]] eqn:Hx.
  2:{ cbn. exists false. split; [reflexivity|]. split; [discriminate|].
      intros (? & ? & ? & [=] & _). }
  unfold bind at 1.
  pose proof (save_temperature_tiff_spec self data1 md1 output_path "lzw" st1)
    as [Hr _].
  destruct (save_temperature_tiff E self data1 md1 output_path "lzw" st1)
    as [st2 r] eqn:Hs.
  cbn [snd] in Hr. subst r.
  destruct (encode_succeeds E data1 md1 output_path "lzw" (fs E st1)) eqn:Hok.
  2:{ cbn. exists false. split; [reflexivity|]. split; [discriminate|].
      intros (? & ? & ? & [= <- <- <-] & H & _). congruence. }
  unfold_monad. unfold nd_reduce. cbn.
  destruct (List.concat (rows data1)) as [|x xs] eqn:Hc; cbn.
  - exists false. split; [reflexivity|]. split; [discriminate|].
    intros (? & ? & ? & [= <- <- <-] & _ & H). congruence.
  - exists true. split; [reflexivity|]. split; [|reflexivity].
    intros _. exists st1, data1, md1. rewrite Hc. auto.
Qed.

(** *** The encoder has no range check *)

(** C2 (amended).  The encoder has no range check.  For every grid holding a
    temperature whose scaled value is outside the int16 range (or is not a
    number), if the directory creation, the array wrapping and the write
    succeed then the encoder returns [True], the file system is the one the
    write left, and the cell holds the 16-bit reduction of the hardware
    conversion. *)
Theorem encode_has_no_overflow_check (self : converter) (data : ndarray spec_float)
    (md : metadata) (output_path compression : string) (st : state E)
    (i j : nat) (t : spec_float) :
  cell data i j = Some t ->
  match SFtrunc (f32_mul t f32_ten) with
  | Some z => in_int16 z = false
  | None => True
  end ->
  encode_succeeds E data md output_path compression (fs E st) = true ->
  snd (save_temperature_tiff E self data md output_path compression st) = Ok true /\
  fs E (fst (save_temperature_tiff E self data md output_path compression st))
  = fst (write_step E data md output_path compression
           (fst (makedirs_step E output_path (fs E st)))) /\
  cell (temp_scaled E data) i j = Some (wrap16 (cast_hw E (f32_mul t f32_ten))).
Proof.
  intros Hc Hout Hok.
  destruct (save_temperature_tiff_spec self data md output_path compression st)
    as [Hr Hw].
  rewrite Hr, Hw, Hok. split; [reflexivity|]. split.
  - unfold encode_world. unfold encode_succeeds in Hok.
    destruct (makedirs_step E output_path (fs E st)) as [w1 r1]. cbn [fst].
    apply andb_prop in Hok as [Hok _]. rewrite Hok. reflexivity.
  - unfold temp_scaled. rewrite cell_nd_map, Hc. cbn. f_equal.
    unfold scale_cell, astype_int16.
    destruct (SFtrunc (f32_mul t f32_ten)) as [z|]; [rewrite Hout|]; reflexivity.
Qed.

End Encoder.

Lemma encode_has_no_overflow_check_witness :
  cell (Sim.one_cell (f32_of_Z 4000)) 0 0 = Some (f32_of_Z 4000) /\
  snd (save_temperature_tiff Sim.env (init None) (Sim.one_cell (f32_of_Z 4000))
         Sim.no_metadata "out/a.tiff" "lzw" (Sim.start ∅)) = Ok true /\
  cell (temp_scaled Sim.env (Sim.one_cell (f32_of_Z 4000))) 0 0 = Some (-25536).
Proof.
  split; [reflexivity|].
  destruct (encode_has_no_overflow_check Sim.env (init None)
              (Sim.one_cell (f32_of_Z 4000)) Sim.no_metadata "out/a.tiff" "lzw"
              (Sim.start ∅) 0 0 (f32_of_Z 4000) eq_refl eq_refl eq_refl)
    as (H1 & _ & H3).
  split; [exact H1|exact H3].
Defined.

(** C2, as stated, fails: a grid holding 4000 degrees scales to 40000, the
    encoder returns [True] and the file is written, with -25536 in it. *)
Lemma overflowing_grid_is_written :
  SF2Q (f32_mul (f32_of_Z 4000) f32_ten) == 40000 /\
  snd (save_temperature_tiff Sim.env (init None) (Sim.one_cell (f32_of_Z 4000))
         Sim.no_metadata "out/a.tiff" "lzw" (Sim.start ∅)) = Ok true /\
  exists tags,
    fs Sim.env (fst (save_temperature_tiff Sim.env (init None)
                       (Sim.one_cell (f32_of_Z 4000))
                       Sim.no_metadata "out/a.tiff" "lzw" (Sim.start ∅)))
      !! "out/a.tiff"%string
    = Some (Sim.TiffFile {| shape := (1, 1); rows := [[-25536]] |} "lzw" tags).
Proof.
  split; [reflexivity|]. split; [reflexivity|].
  eexists. vm_compute. reflexivity.
Qed.

Lemma detect_resolution_never_fails_witness :
  is_Some (device_configs (init None) !! default_model (init None)) /\
  snd (_detect_image_resolution Sim.env (init None) "missing.jpg" (Sim.start ∅))
  = Ok (1280, 1024).
Proof.
  assert (H : is_Some (device_configs (init None) !! default_model (init None)))
    by (eexists; reflexivity).
  split; [exact H|].
  destruct (detect_resolution_never_fails Sim.env (init None) "missing.jpg"
              (Sim.start ∅) H) as [_ (cfg & Hc & Hr)].
  rewrite Hr. vm_compute in Hc. injection Hc as <-. reflexivity.
Defined.

(** ** The raster the encoder writes *)

Section Raster.

Context (E : Env).




End Raster.





(** ** The synthetic generator and the decode entry point *)

Section Generator.

Context (E : Env).

Lemma foldl_invariant {A B} (P : A -> Prop) (f : A -> B -> A) (l : list B) (a : A) :
  (forall a x, P a -> P (f a x)) -> P a -> P (foldl f a l).
Proof. intros Hf. revert a. induction l as [|x l IH]; intros a Ha; cbn; auto. Qed.

Lemma set_item_dims {A} (h w i j : Z) (v : A) (a : ndarray A) :
  has_dims h w a -> has_dims h w (set_item a i j v).
Proof.
  intros (Hs & Hl & Hr). unfold has_dims, set_item. cbn [shape rows].
  split; [exact Hs|]. split.
  - rewrite length_alter. exact Hl.
  - apply Forall_alter; [exact Hr|]. intros row _ Hrow.
    rewrite length_insert. exact Hrow.
Qed.

Lemma fill_gradient_dims (h w : Z) (a : ndarray spec_float) :
  has_dims h w a -> has_dims h w (fill_gradient h w a).
Proof.
  intros Ha. unfold fill_gradient.
  apply foldl_invariant; [|exact Ha]. intros a' i Ha'.
  apply foldl_invariant; [|exact Ha']. intros a'' j Ha''.
  apply set_item_dims. exact Ha''.
Qed.

Lemma np_zeros_dims (h w : Z) (a : ndarray spec_float) :
  np_zeros h w = Ok a -> 0 <= h /\ 0 <= w /\ has_dims h w a.
Proof.
  unfold np_zeros.
  destruct (Z.ltb_spec h 0); [discriminate|].
  destruct (Z.ltb_spec w 0); [discriminate|]. cbn.
  intros [= <-]. split; [lia|]. split; [lia|].
  unfold has_dims. cbn [shape rows]. split; [reflexivity|]. split.
  - apply length_replicate.
  - apply Forall_replicate. apply length_replicate.
Qed.

Lemma hot_spot_array_dims (h w : Z) : has_dims h w (hot_spot_array E h w).
Proof.
  unfold has_dims, hot_spot_array. cbn [shape rows]. split; [reflexivity|]. split.
  - rewrite length_map, length_seqZ. reflexivity.
  - apply Forall_map, Forall_forall. intros y _. cbn.
    rewrite length_map, length_seqZ. reflexivity.
Qed.

Lemma Forall_zip_with {A B C} (P : A -> Prop) (Q : B -> Prop) (R : C -> Prop)
    (f : A -> B -> C) (l : list A) (k : list B) :
  (forall x y, P x -> Q y -> R (f x y)) ->
  Forall P l -> Forall Q k -> Forall R (zip_with f l k).
Proof.
  intros Hf Hl. revert k. induction Hl as [|x l Hx Hl IH]; intros k Hk; cbn.
  - constructor.
  - destruct Hk as [|y k Hy Hk]; constructor; auto.
Qed.

Lemma iadd_dims (h w : Z) (a b : ndarray spec_float) :
  has_dims h w a -> has_dims h w b -> has_dims h w (iadd a b).
Proof.
  intros (Hs & Hl & Hr) (_ & Hl' & Hr'). unfold has_dims, iadd. cbn [shape rows].
  split; [exact Hs|]. split.
  - rewrite length_zip_with. lia.
  - eapply Forall_zip_with; [|exact Hr|exact Hr'].
    cbn. intros x y Hx Hy. rewrite length_zip_with. lia.
Qed.

(** What the generator returns for a given resolution. *)
Lemma create_mock_result (self : converter) (w h : Z) (st : state E) :
  snd (_create_mock_temperature_data E self (Some (w, h)) st)
  = match np_zeros h w with
    | Ok zeros => Ok (iadd (fill_gradient h w zeros) (hot_spot_array E h w))
    | Raise e => Raise e
    end /\
  fs E (fst (_create_mock_temperature_data E self (Some (w, h)) st)) = fs E st.
Proof.
  unfold _create_mock_temperature_data. unfold_monad. cbn.
  destruct (np_zeros h w); cbn; split; reflexivity.
Qed.

Lemma parse_rjpeg_result (self : converter) (rjpeg_data : string)
    (resolution : option (Z * Z)) (st : state E) :
  exists st',
    _parse_rjpeg_with_sdk E self rjpeg_data resolution st
    = _create_mock_temperature_data E self resolution st' /\
    fs E st' = fs E st.
Proof.
  unfold _parse_rjpeg_with_sdk. unfold bind, logger.
  destruct (sdk_handle self); eexists; split; reflexivity.
Qed.

(** C6 (amended).  The decode entry point never looks at the byte buffer and
    checks the resolution only through the array allocation: for every
    buffer, the empty one included, it returns a grid of [height] rows of
    [width] cells when neither is negative (an empty grid when one is zero),
    and raises [ValueError] exactly when one is negative. *)
Theorem decode_rejects_only_negative_sizes (self : converter) (rjpeg_data : string)
    (width height : Z) (st : state E) :
  match snd (_parse_rjpeg_with_sdk E self rjpeg_data (Some (width, height)) st) with
  | Ok g => 0 <= width /\ 0 <= height /\ has_dims height width g
  | Raise e => e = ValueError /\ (width < 0 \/ height < 0)
  end.
Proof.
  destruct (parse_rjpeg_result self rjpeg_data (Some (width, height)) st)
    as (st' & -> & _).
  destruct (create_mock_result self width height st') as [-> _].
  destruct (np_zeros height width) as [zeros|e] eqn:Hz.
  - apply np_zeros_dims in Hz as (Hh & Hw & Hd).
    split; [exact Hw|]. split; [exact Hh|].
    apply iadd_dims; [apply fill_gradient_dims; exact Hd|apply hot_spot_array_dims].
  - unfold np_zeros in Hz.
    destruct (Z.ltb_spec height 0); [injection Hz as <-; split; [reflexivity|lia]|].
    destruct (Z.ltb_spec width 0); [injection Hz as <-; split; [reflexivity|lia]|].
    discriminate.
Qed.

(** C5.  The synthetic grid is a function of (width, height) alone: two
    invocations with the same resolution return the same grid, whatever the
    converter, the byte buffer, the file system and the log, and the
    generator leaves the file system as it was. *)
Theorem synthetic_generator_deterministic (self1 self2 : converter)
    (data1 data2 : string) (width height : Z) (st1 st2 : state E) :
  snd (_create_mock_temperature_data E self1 (Some (width, height)) st1)
  = snd (_create_mock_temperature_data E self2 (Some (width, height)) st2) /\
  snd (_parse_rjpeg_with_sdk E self1 data1 (Some (width, height)) st1)
  = snd (_parse_rjpeg_with_sdk E self2 data2 (Some (width, height)) st2) /\
  fs E (fst (_create_mock_temperature_data E self1 (Some (width, height)) st1))
  = fs E st1.
Proof.
  destruct (parse_rjpeg_result self1 data1 (Some (width, height)) st1)
    as (st1' & -> & _).
  destruct (parse_rjpeg_result self2 data2 (Some (width, height)) st2)
    as (st2' & -> & _).
  destruct (create_mock_result self1 width height st1) as [-> ->].
  destruct (create_mock_result self2 width height st2) as [-> _].
  destruct (create_mock_result self1 width height st1') as [-> _].
  destruct (create_mock_result self2 width height st2') as [-> _].
  auto.
Qed.

End Generator.

(** C6, as stated, fails: an empty buffer with resolution (0, 0) returns an
    empty grid, an empty buffer with resolution (2, 1) returns a grid, and so
    does a zero width. *)
Lemma empty_buffer_and_zero_size_are_decoded :
  snd (_parse_rjpeg_with_sdk Sim.env (init None) "" (Some (0, 0)) (Sim.start ∅))
  = Ok {| shape := (0, 0); rows := [] |} /\
  is_ok (snd (_parse_rjpeg_with_sdk Sim.env (init None) "" (Some (2, 1))
                (Sim.start ∅))) = true /\
  is_ok (snd (_parse_rjpeg_with_sdk Sim.env (init None) "data" (Some (0, 3))
                (Sim.start ∅))) = true.
Proof. repeat split; vm_compute; reflexivity. Qed.

(** ** The device registry *)

Lemma upper_ascii_idempotent (c : ascii) : upper_ascii (upper_ascii c) = upper_ascii c.
Proof. destruct c as [[] [] [] [] [] [] [] []]; reflexivity. Qed.

Lemma upper_idempotent (s : string) : upper (upper s) = upper s.
Proof.
  unfold upper. induction s as [|c s IH]; cbn; [reflexivity|].
  rewrite upper_ascii_idempotent, IH. reflexivity.
Qed.

Lemma DRONE_MODELS_lookup_None (k : string) :
  Config.DRONE_MODELS !! k = None <-> k ∉ Config.get_supported_models.
Proof.
  unfold Config.DRONE_MODELS, Config.get_supported_models.
  rewrite !lookup_insert_None, !not_elem_of_cons.
  split; intros H; destruct_and!; split_and!;
    try congruence; try apply not_elem_of_nil; try apply lookup_empty.
Qed.

(** C7.  The registry lookup uppercases the id before matching: an id and
    its uppercase form give the same result, so do "m30t" and "M30T"; the
    lookup raises exactly when the uppercased id is none of M30T, H20T,
    H30T, M2EA, as for "X9". *)
Theorem lookup_is_case_insensitive (model : string) :
  Config.get_model_config model = Config.get_model_config (upper model) /\
  Config.get_model_config "m30t" = Config.get_model_config "M30T" /\
  Config.get_model_config "M30T" = Ok Config.M30T_config /\
  (Config.get_model_config model = Raise ValueError
   <-> upper model ∉ Config.get_supported_models) /\
  (is_ok (Config.get_model_config model) = true
   <-> upper model ∈ Config.get_supported_models) /\
  Config.get_model_config "X9" = Raise ValueError.
Proof.
  split; [unfold Config.get_model_config; rewrite upper_idempotent; reflexivity|].
  split; [reflexivity|]. split; [reflexivity|].
  pose proof (DRONE_MODELS_lookup_None (upper model)) as Hn.
  unfold Config.get_model_config.
  destruct (Config.DRONE_MODELS !! upper model) as [cfg|] eqn:Hl.
  - split; [|split; [|reflexivity]].
    + split; [discriminate|]. intros H. apply Hn in H. discriminate.
    + split; [|reflexivity]. intros _.
      destruct (decide (upper model ∈ Config.get_supported_models)) as [|Hne];
        [assumption|]. apply Hn in Hne. discriminate.
  - split; [|split; [|reflexivity]].
    + split; [intros _; apply Hn; reflexivity|reflexivity].
    + split; [discriminate|]. intros H. exfalso. apply Hn in H; [assumption|reflexivity].
Qed.

(** ** The batch loop *)

Section Batch.

Context (E : Env) (str_upper : string -> string).

(** One job moves exactly one counter by one and leaves [total] alone. *)
Lemma job_step_outcome (self : converter) (input_dir output_dir : string)
    (acc : state E * results) (rjpeg_file : string) :
  match job E self input_dir output_dir rjpeg_file (fst acc) with
  | (_, Ok true) =>
      snd (job_step E self input_dir output_dir acc rjpeg_file) = incr_success (snd acc)
  | (_, Ok false) | (_, Raise _) =>
      snd (job_step E self input_dir output_dir acc rjpeg_file) = incr_failed (snd acc)
  end.
Proof.
  destruct acc as [st r]. unfold job_step. cbn [fst snd].
  destruct (job E self input_dir output_dir rjpeg_file st) as [st' [[]|e]];
    reflexivity.
Qed.

Lemma job_step_counts (self : converter) (input_dir output_dir : string)
    (acc : state E * results) (rjpeg_file : string) :
  let r := snd acc in
  let r' := snd (job_step E self input_dir output_dir acc rjpeg_file) in
  total r' = total r /\
  success r' + failed r' = success r + failed r + 1 /\
  success r <= success r' /\ failed r <= failed r'.
Proof.
  pose proof (job_step_outcome self input_dir output_dir acc rjpeg_file) as H.
  destruct (job E self input_dir output_dir rjpeg_file (fst acc)) as [st' [[]|e]];
    cbv zeta; rewrite H; cbn; lia.
Qed.

Lemma run_jobs_counts (self : converter) (input_dir output_dir : string)
    (rjpeg_files : list string) (acc : state E * results) :
  let r := snd acc in
  let r' := snd (run_jobs E self input_dir output_dir rjpeg_files acc) in
  total r' = total r /\
  success r' + failed r' = success r + failed r + Z.of_nat (List.length rjpeg_files) /\
  success r <= success r' /\ failed r <= failed r'.
Proof.
  unfold run_jobs. revert acc.
  induction rjpeg_files as [|file files IH]; intros acc; cbn [foldl List.length].
  - cbv zeta. lia.
  - pose proof (job_step_counts self input_dir output_dir acc file) as Hs.
    specialize (IH (job_step E self input_dir output_dir acc file)).
    cbv zeta in *. lia.
Qed.

(** The loop step written with [job_result]. *)
Lemma job_step_result (self : converter) (input_dir output_dir : string)
    (acc : state E * results) (rjpeg_file : string) :
  job_step E self input_dir output_dir acc rjpeg_file
  = (fst (job_result E self input_dir output_dir rjpeg_file (fst acc)),
     if snd (job_result E self input_dir output_dir rjpeg_file (fst acc))
     then incr_success (snd acc) else incr_failed (snd acc)).
Proof.
  destruct acc as [st r]. unfold job_step, job_result. cbn [fst snd].
  destruct (job E self input_dir output_dir rjpeg_file st) as [st' [[]|e]];
    reflexivity.
Qed.

Lemma count_cons (b c : bool) (outcomes : list bool) :
  count b (c :: outcomes) = (if Bool.eqb b c then 1 else 0) + count b outcomes.
Proof.
  unfold count. cbn [List.filter].
  destruct (Bool.eqb b c); cbn [List.length]; lia.
Qed.

(** The counters after the loop are the counters before it plus the number
    of jobs that returned [True], and plus the number of the others. *)
Lemma run_jobs_outcomes (self : converter) (input_dir output_dir : string)
    (rjpeg_files : list string) (acc : state E * results) :
  let outcomes := job_outcomes E self input_dir output_dir rjpeg_files (fst acc) in
  let r := snd acc in
  let r' := snd (run_jobs E self input_dir output_dir rjpeg_files acc) in
  List.length outcomes = List.length rjpeg_files /\
  success r' = success r + count true outcomes /\
  failed r' = failed r + count false outcomes.
Proof.
  unfold run_jobs. revert acc.
  induction rjpeg_files as [|file files IH]; intros acc;
    cbn [foldl job_outcomes List.length].
  - cbv zeta. unfold count. cbn. lia.
  - specialize (IH (job_step E self input_dir output_dir acc file)).
    rewrite (job_step_result self input_dir output_dir acc file) in *.
    cbv zeta in *.
    destruct (job_result E self input_dir output_dir file (fst acc)) as [st' b].
    cbn [fst snd List.length] in *. rewrite !count_cons.
    destruct IH as (Hl & Hs & Hf). rewrite Hl, Hs, Hf.
    destruct b; cbn [Bool.eqb success failed incr_success incr_failed];
      split; try reflexivity; lia.
Qed.

Lemma job_outcomes_take (self : converter) (input_dir output_dir : string)
    (k : nat) (rjpeg_files : list string) (st : state E) :
  job_outcomes E self input_dir output_dir (take k rjpeg_files) st
  = take k (job_outcomes E self input_dir output_dir rjpeg_files st).
Proof.
  revert k st. induction rjpeg_files as [|file files IH]; intros [|k] st;
    try reflexivity.
  change (take (S k) (file :: files)) with (file :: take k files).
  cbn [job_outcomes].
  destruct (job_result E self input_dir output_dir file st) as [st' b].
  rewrite IH. reflexivity.
Qed.

(** C9.  For every batch run, the returned counts satisfy
    success + failed = total.  total is the number of files discovered and
    stays the same after any number of jobs.  The returned counts are those
    of the job loop run over the files discovered, each job from the state
    the one before left: success is the number of jobs that returned
    [True], failed the number of those that returned [False] or raised, and
    so it is after every prefix of the jobs; a job that fails adds one to
    failed and the loop goes on.  When the discovery raises, all three
    counts are zero. *)
Theorem batch_counts_add_up (self : converter) (input_dir output_dir : string)
    (recursive : bool) (st : state E) :
  let r := snd (batch_convert E str_upper self input_dir output_dir recursive st) in
  success r + failed r = total r /\ 0 <= success r /\ 0 <= failed r /\
  match discover E str_upper self input_dir recursive st with
  | (st1, Ok rjpeg_files) =>
      let n := Z.of_nat (List.length rjpeg_files) in
      let st2 := fst (logger E (INFO (FoundFiles n)) st1) in
      let r1 := {| success := 0; failed := 0; total := n |} in
      let outcomes := job_outcomes E self input_dir output_dir rjpeg_files st2 in
      total r = n /\
      r = snd (run_jobs E self input_dir output_dir rjpeg_files (st2, r1)) /\
      List.length outcomes = List.length rjpeg_files /\
      success r = count true outcomes /\
      failed r = count false outcomes /\
      forall k : nat,
        let p := snd (run_jobs E self input_dir output_dir (take k rjpeg_files)
                        (st2, r1)) in
        total p = n /\
        success p + failed p = Z.of_nat (Nat.min k (List.length rjpeg_files)) /\
        success p = count true (take k outcomes) /\
        failed p = count false (take k outcomes)
  | (_, Raise _) => r = {| success := 0; failed := 0; total := 0 |}
  end /\
  forall (acc : state E * results) (rjpeg_file : string),
    match job E self input_dir output_dir rjpeg_file (fst acc) with
    | (_, Ok true) =>
        snd (job_step E self input_dir output_dir acc rjpeg_file)
        = incr_success (snd acc)
    | (_, Ok false) | (_, Raise _) =>
        snd (job_step E self input_dir output_dir acc rjpeg_file)
        = incr_failed (snd acc)
    end.
Proof.
  cbv zeta. unfold batch_convert.
  destruct (discover E str_upper self input_dir recursive st) as [st1 [files|e]].
  - set (n := Z.of_nat (List.length files)).
    set (r1 := set_total {| success := 0; failed := 0; total := 0 |} n).
    change {| success := 0; failed := 0; total := n |} with r1.
    change (total r1) with n.
    set (st2 := fst (logger E (INFO (FoundFiles n)) st1)).
    pose proof (run_jobs_counts self input_dir output_dir files (st2, r1)) as Hc.
    pose proof (run_jobs_outcomes self input_dir output_dir files (st2, r1)) as Ho.
    destruct (run_jobs E self input_dir output_dir files (st2, r1)) as [st3 r3].
    cbv zeta in Hc, Ho. cbn [snd fst] in *.
    assert (Hr1 : success r1 = 0 /\ failed r1 = 0 /\ total r1 = n) by (cbn; auto).
    destruct Ho as (Hl & Hs & Hf).
    split; [lia|]. split; [lia|]. split; [lia|]. split.
    + split; [lia|]. split; [reflexivity|]. split; [exact Hl|].
      split; [lia|]. split; [lia|]. intros k.
      pose proof (run_jobs_counts self input_dir output_dir (take k files)
                    (st2, r1)) as Hk.
      pose proof (run_jobs_outcomes self input_dir output_dir (take k files)
                    (st2, r1)) as Hk'.
      cbv zeta in Hk, Hk'. cbn [snd fst] in Hk, Hk'. rewrite length_take in Hk.
      rewrite job_outcomes_take in Hk'.
      destruct Hk as (Hk1 & Hk2 & _). destruct Hk' as (_ & Hk3 & Hk4).
      split; [lia|]. split; [lia|]. split; lia.
    + apply job_step_outcome.
  - cbn. split; [reflexivity|]. split; [lia|]. split; [lia|]. split; [reflexivity|].
    apply job_step_outcome.
Qed.

End Batch.

(** * Further properties of the code *)

(** ** The constructor *)

Section StartupProofs.

Import Startup.

Context {E : Env} (H : Host E).

(** [_find_sdk_library]: an explicit non-empty path that exists wins;
    otherwise the answer is the first default place that exists, and [None]
    exactly when none does. *)
Theorem find_sdk_library_first_existing (sdk_path : option string) (w : world E) :
  _find_sdk_library H sdk_path w
  = match truthy sdk_path with
    | Some p => if os_path_exists H w p then Some p
                else _find_sdk_library H None w
    | None => _find_sdk_library H None w
    end /\
  match _find_sdk_library H None w with
  | Some p =>
      os_path_exists H w p = true /\
      exists before after,
        possible_paths H w = before ++ p :: after /\
        Forall (fun q => os_path_exists H w q = false) before
  | None => Forall (fun q => os_path_exists H w q = false) (possible_paths H w)
  end.
Proof.
  split.
  - unfold _find_sdk_library. destruct (truthy sdk_path) as [p|]; cbn; reflexivity.
  - unfold _find_sdk_library. cbn [truthy].
    generalize (possible_paths H w) as l.
    induction l as [|q l IH]; cbn.
    + constructor.
    + destruct (os_path_exists H w q) eqn:Hq.
      * split; [exact Hq|]. exists [], l. split; [reflexivity|constructor].
      * destruct (find (os_path_exists H w) l) as [p|].
        -- destruct IH as [Hp (before & after & -> & Hb)].
           split; [exact Hp|]. exists (q :: before), after.
           split; [reflexivity|constructor; assumption].
        -- constructor; assumption.
Qed.

(** The constructor always yields [init handle]: the flag is set exactly
    when ctypes is there, a library file was found and it loaded; and the
    default model is a key of the device table. *)
Theorem constructor_establishes_invariant (sdk_path : option string) (w : world E) :
  let c := snd (__init__ H sdk_path w) in
  c = init (sdk_handle c) /\
  (is_initialized c = true <->
   ctypes_available H = true /\
   exists p, _find_sdk_library H sdk_path w = Some p /\
             is_ok (LoadLibrary H w p) = true) /\
  (is_initialized c = true <-> is_Some (sdk_handle c)) /\
  is_Some (device_configs c !! default_model c).
Proof.
  cbv zeta. unfold __init__, _init_sdk.
  destruct (ctypes_available H); cbn [negb].
  2:{ cbn. split; [reflexivity|]. split; [|split].
      - split; [discriminate|]. intros [[=] _].
      - split; [discriminate|]. intros [? [=]].
      - eexists; reflexivity. }
  destruct (_find_sdk_library H sdk_path w) as [p|].
  2:{ cbn. split; [reflexivity|]. split; [|split].
      - split; [discriminate|]. intros [_ (? & [=] & _)].
      - split; [discriminate|]. intros [? [=]].
      - eexists; reflexivity. }
  destruct (LoadLibrary H w p) as [h|e] eqn:Hl; cbn.
  - split; [reflexivity|]. split; [|split].
    + split; [|reflexivity]. intros _. split; [reflexivity|].
      exists p. rewrite Hl. auto.
    + split; [eauto|reflexivity].
    + eexists; reflexivity.
  - split; [reflexivity|]. split; [|split].
    + split; [discriminate|]. intros [_ (q & [= <-] & Hq)].
      rewrite Hl in Hq. discriminate.
    + split; [discriminate|]. intros [? [=]].
    + eexists; reflexivity.
Qed.

End StartupProofs.
(** ** The candidate heuristic and the discovery loop *)

Section Discovery.

Context (E : Env) (str_upper : string -> string).

Lemma is_likely_rjpeg_run (self : converter) (file_path : string) (st : state E) :
  _is_likely_rjpeg E str_upper self file_path st
  = (st, Ok (Pure.likely E str_upper (fs E st) file_path)).
Proof.
  unfold _is_likely_rjpeg, Pure.likely. unfold_monad.
  destruct (os_getsize E (fs E st) file_path) as [n|e]; cbn; [|reflexivity].
  destruct (n <? 100000); cbn; [reflexivity|].
  destruct (contains "DJI" (str_upper (path_basename E file_path))
            || contains "_T" (str_upper (path_basename E file_path))
            || contains "_R" (str_upper (path_basename E file_path))); cbn;
    [reflexivity|].
  destruct (read_bytes E (fs E st) file_path) as [content|e]; cbn; [|reflexivity].
  destruct (contains "DJI" (substring 0 1000 content)
            || contains "FLIR" (substring 0 1000 content)); reflexivity.
Qed.

(** [_is_likely_rjpeg] never raises, logs nothing and changes nothing.  It
    answers [False] when the size cannot be read or is below 100000 bytes.
    From 100000 bytes on, every file that can be read is accepted, whatever
    its name and its first 1000 bytes hold: the markers only spare the read. *)
Theorem is_likely_rjpeg_spec (self : converter) (file_path : string) (st : state E) :
  _is_likely_rjpeg E str_upper self file_path st
  = (st, Ok (Pure.likely E str_upper (fs E st) file_path)) /\
  match os_getsize E (fs E st) file_path with
  | Raise _ => Pure.likely E str_upper (fs E st) file_path = false
  | Ok file_size =>
      if file_size <? 100000 then Pure.likely E str_upper (fs E st) file_path = false
      else if is_ok (read_bytes E (fs E st) file_path)
           then Pure.likely E str_upper (fs E st) file_path = true
           else Pure.likely E str_upper (fs E st) file_path
                = contains "DJI" (str_upper (path_basename E file_path))
                  || contains "_T" (str_upper (path_basename E file_path))
                  || contains "_R" (str_upper (path_basename E file_path))
  end.
Proof.
  split; [apply is_likely_rjpeg_run|].
  unfold Pure.likely.
  destruct (os_getsize E (fs E st) file_path) as [n|e]; [|reflexivity].
  destruct (n <? 100000); [reflexivity|].
  destruct (contains "DJI" (str_upper (path_basename E file_path))
            || contains "_T" (str_upper (path_basename E file_path))
            || contains "_R" (str_upper (path_basename E file_path)));
    destruct (read_bytes E (fs E st) file_path); reflexivity.
Qed.

Lemma scan_files_spec (self : converter) (root : string) (files : list string)
    (st : state E) :
  scan_files E str_upper self root files st
  = (st, Ok (Pure.candidates_in E str_upper (fs E st) (root, files))).
Proof.
  unfold Pure.candidates_in.
  induction files as [|file files IH]; cbn [scan_files]; [reflexivity|].
  unfold bind at 1. cbn [List.filter]. fold (Paths.batch_accepts file).
  destruct (Paths.batch_accepts file).
  - unfold bind at 1. rewrite is_likely_rjpeg_run. unfold ret at 1.
    unfold bind at 1. rewrite IH. unfold ret. cbn [map List.filter].
    destruct (Pure.likely E str_upper (fs E st) (path_join E root file)); reflexivity.
  - unfold ret at 1. unfold bind at 1. rewrite IH. reflexivity.
Qed.

Lemma scan_dirs_spec (self : converter) (dirs : list (string * list string))
    (st : state E) :
  scan_dirs E str_upper self dirs st
  = (st, Ok (List.concat (map (Pure.candidates_in E str_upper (fs E st)) dirs))).
Proof.
  induction dirs as [|[root files] dirs IH]; cbn [scan_dirs]; [reflexivity|].
  unfold bind at 1. rewrite scan_files_spec.
  unfold bind at 1. rewrite IH. reflexivity.
Qed.

Lemma discover_run (self : converter) (input_dir : string) (recursive : bool)
    (st : state E) :
  discover E str_upper self input_dir recursive st
  = (st, match os_walk E (fs E st) input_dir with
         | Ok walk => Ok (Pure.candidates E str_upper (fs E st) recursive walk)
         | Raise e => Raise e
         end).
Proof.
  unfold discover. unfold bind at 1, reading.
  destruct (os_walk E (fs E st) input_dir) as [walk|e]; [|reflexivity].
  rewrite scan_dirs_spec. reflexivity.
Qed.

(** The discovery loop of [batch_convert] changes neither the file system
    nor the log; it fails only if the walk does; its result is, directory by
    directory and in the order of the walk, the joined paths of the files
    whose lowercased name ends in .jpg or .jpeg and that
    [_is_likely_rjpeg] accepts; without [recursive] only the first
    directory of the walk is scanned. *)
Theorem discover_spec (self : converter) (input_dir : string) (recursive : bool)
    (st : state E) :
  discover E str_upper self input_dir recursive st
  = (st, match os_walk E (fs E st) input_dir with
         | Ok walk => Ok (Pure.candidates E str_upper (fs E st) recursive walk)
         | Raise e => Raise e
         end) /\
  forall walk p,
    In p (Pure.candidates E str_upper (fs E st) recursive walk) ->
    exists root files file,
      In (root, files) walk /\ (recursive = false -> head walk = Some (root, files)) /\
      In file files /\ p = path_join E root file /\
      Paths.batch_accepts file = true /\ Pure.likely E str_upper (fs E st) p = true.
Proof.
  split.
  - apply discover_run.
  - intros walk p Hp. unfold Pure.candidates in Hp.
    apply in_concat in Hp as (l & Hl & Hp).
    apply in_map_iff in Hl as ([root files] & <- & Hin).
    unfold Pure.candidates_in in Hp.
    apply filter_In in Hp as [Hp Hlik].
    apply in_map_iff in Hp as (file & <- & Hf).
    apply filter_In in Hf as [Hf Hacc].
    exists root, files, file.
    split; [destruct recursive; [exact Hin|]|].
    { destruct walk as [|d walk]; cbn in Hin; [contradiction|].
      destruct Hin as [->|[]]. left. reflexivity. }
    split.
    { intros ->. destruct walk as [|d walk]; cbn in Hin; [contradiction|].
      destruct Hin as [->|[]]. reflexivity. }
    auto.
Qed.

(** A batch that finds no candidate (an empty directory, only small files,
    only other extensions) or whose walk fails converts nothing: the file
    system is as it was, all three counts are zero, and the log says so. *)
Theorem batch_without_candidates_writes_nothing (self : converter)
    (input_dir output_dir : string) (recursive : bool) (st : state E) :
  match os_walk E (fs E st) input_dir with
  | Ok walk =>
      if bool_decide (Pure.candidates E str_upper (fs E st) recursive walk = [])
      then batch_convert E str_upper self input_dir output_dir recursive st
           = ({| fs := fs E st;
                 log := (log E st ++ [INFO (FoundFiles 0)]) ++ [INFO (BatchDone 0 0)] |},
              {| success := 0; failed := 0; total := 0 |})
      else total (snd (batch_convert E str_upper self input_dir output_dir recursive st)) > 0
  | Raise e =>
      batch_convert E str_upper self input_dir output_dir recursive st
      = ({| fs := fs E st; log := log E st ++ [ERROR (BatchFailed e)] |},
         {| success := 0; failed := 0; total := 0 |})
  end.
Proof.
  unfold batch_convert. rewrite discover_run.
  destruct (os_walk E (fs E st) input_dir) as [walk|e]; [|reflexivity].
  case_bool_decide as Hc.
  - rewrite Hc. reflexivity.
  - pose proof (run_jobs_counts E self input_dir output_dir
                  (Pure.candidates E str_upper (fs E st) recursive walk)) as Hr.
    match goal with
    | |- context [run_jobs E self input_dir output_dir _ ?acc] =>
        specialize (Hr acc); destruct (run_jobs E self input_dir output_dir _ acc)
          as [st3 r3]
    end.
    cbv zeta in Hr. cbn [snd fst] in *. destruct Hr as (Ht & _).
    rewrite Ht. cbn.
    destruct (Pure.candidates E str_upper (fs E st) recursive walk); [contradiction|].
    cbn [List.length]. lia.
Qed.

End Discovery.
(** ** The synthetic grid in closed form *)

Section Fill.

Context (E : Env).

Lemma insert_as_alter {A} (l : list A) (j : nat) (v : A) :
  <[j := v]> l = alter (fun _ => v) j l.
Proof.
  revert j. induction l as [|x l IH]; intros [|j]; cbn; try reflexivity.
  f_equal. apply IH.
Qed.

(** Altering the positions of a duplicate-free index list, one after the
    other: position [k] is altered exactly when [k] is in the list. *)
Lemma foldl_alter_lookup {A} (F : nat -> A -> A) (js : list nat) (l : list A)
    (k : nat) :
  NoDup js ->
  foldl (fun l j => alter (F j) j l) l js !! k
  = if decide (k ∈ js) then F k <$> l !! k else l !! k.
Proof.
  induction js as [|j js IH] using rev_ind; intros Hnd.
  - cbn. destruct (decide (k ∈ [])) as [Hk|]; [|reflexivity].
    apply elem_of_nil in Hk. contradiction.
  - apply NoDup_app in Hnd as (Hjs & Hdis & _).
    rewrite foldl_app. cbn [foldl].
    destruct (decide (k = j)) as [->|Hne].
    + rewrite list_lookup_alter_eq, (IH Hjs).
      destruct (decide (j ∈ js)) as [Hin|_].
      { exfalso. apply (Hdis j Hin). apply list_elem_of_singleton. reflexivity. }
      destruct (decide (j ∈ js ++ [j])) as [_|Hn]; [reflexivity|].
      exfalso. apply Hn. apply elem_of_app. right. apply list_elem_of_singleton.
      reflexivity.
    + rewrite list_lookup_alter_ne by congruence. rewrite (IH Hjs).
      destruct (decide (k ∈ js)) as [Hin|Hn];
        destruct (decide (k ∈ js ++ [j])) as [Hin'|Hn']; try reflexivity.
      * exfalso. apply Hn'. apply elem_of_app. left. exact Hin.
      * exfalso. apply elem_of_app in Hin' as [|Hs]; [contradiction|].
        apply list_elem_of_singleton in Hs. contradiction.
Qed.

Lemma alter_alter {A} (f g : A -> A) (i : nat) (l : list A) :
  alter f i (alter g i l) = alter (fun x => f (g x)) i l.
Proof.
  revert i. induction l as [|x l IH]; intros [|i]; cbn; try reflexivity.
  f_equal. apply IH.
Qed.

Lemma foldl_ext_all {A B} (f g : A -> B -> A) (l : list B) (a : A) :
  (forall a x, f a x = g a x) -> foldl f a l = foldl g a l.
Proof.
  intros Hfg. revert a. induction l as [|x l IH]; intros a; cbn; [reflexivity|].
  rewrite Hfg. apply IH.
Qed.

Lemma foldl_alter_same {A B} (f : B -> A -> A) (i : nat) (js : list B) (l : list A) :
  foldl (fun l j => alter (f j) i l) l js
  = alter (fun x => foldl (fun x j => f j x) x js) i l.
Proof.
  revert l. induction js as [|j js IH]; intros l; cbn.
  - symmetry. apply list_alter_id. reflexivity.
  - rewrite IH, alter_alter. reflexivity.
Qed.

Lemma foldl_rows {B} (f : B -> list (list spec_float) -> list (list spec_float))
    (g : ndarray spec_float -> B -> ndarray spec_float) (js : list B)
    (a : ndarray spec_float) :
  (forall a j, rows (g a j) = f j (rows a)) ->
  (forall a j, shape (g a j) = shape a) ->
  rows (foldl g a js) = foldl (fun rs j => f j rs) (rows a) js /\
  shape (foldl g a js) = shape a.
Proof.
  intros Hr Hs. revert a. induction js as [|j js IH]; intros a; cbn; [auto|].
  destruct (IH (g a j)) as [-> ->]. rewrite Hr, Hs. auto.
Qed.

Lemma seqZ_as_seq (n : Z) : seqZ 0 n = Z.of_nat <$> seq 0 (Z.to_nat n).
Proof.
  unfold seqZ. apply list_fmap_ext. intros _ i _. lia.
Qed.

(** One row filled from left to right. *)
Lemma fill_row (g : Z -> spec_float) (w : Z) (row : list spec_float) :
  List.length row = Z.to_nat w ->
  foldl (fun r j => <[Z.to_nat j := g j]> r) row (seqZ 0 w) = g <$> seqZ 0 w.
Proof.
  intros Hlen. rewrite seqZ_as_seq, foldl_fmap.
  apply list_eq. intros k.
  assert (Heq : forall (r : list spec_float) (j : nat),
             <[Z.to_nat (Z.of_nat j) := g (Z.of_nat j)]> r
             = alter (fun _ => g (Z.of_nat j)) j r).
  { intros r j. rewrite Nat2Z.id. apply insert_as_alter. }
  rewrite (foldl_ext_all _ (fun r j => alter (fun _ => g (Z.of_nat j)) j r))
    by apply Heq.
  rewrite (foldl_alter_lookup (fun j _ => g (Z.of_nat j))) by apply NoDup_seq.
  rewrite <- list_fmap_compose, list_lookup_fmap.
  destruct (decide (k ∈ seq 0 (Z.to_nat w))) as [Hin|Hn].
  - apply elem_of_seq in Hin.
    rewrite lookup_seq_lt by lia.
    destruct (lookup_lt_is_Some_2 row k ltac:(lia)) as [x ->]. reflexivity.
  - rewrite lookup_seq_ge by (rewrite elem_of_seq in Hn; lia).
    apply lookup_ge_None. rewrite elem_of_seq in Hn. lia.
Qed.

(** The two nested loops store, in every cell, the gradient narrowed to
    [float32]. *)
Lemma fill_gradient_rows (h w : Z) (a : ndarray spec_float) :
  has_dims h w a ->
  rows (fill_gradient h w a)
  = (fun y => (fun x => f32_of_f64 (gradient h w y x)) <$> seqZ 0 w) <$> seqZ 0 h /\
  shape (fill_gradient h w a) = (h, w).
Proof.
  intros (Hs & Hl & Hr). unfold fill_gradient.
  set (inner := fun (i : Z) (rs : list (list spec_float)) =>
         alter (fun row => (fun x => f32_of_f64 (gradient h w i x)) <$> seqZ 0 w)
           (Z.to_nat i) rs).
  assert (Hin : forall (a : ndarray spec_float) (i : Z),
             Forall (fun row => List.length row = Z.to_nat w) (rows a) ->
             rows (foldl (fun a j => set_item a i j (f32_of_f64 (gradient h w i j)))
                     a (seqZ 0 w)) = inner i (rows a) /\
             shape (foldl (fun a j => set_item a i j (f32_of_f64 (gradient h w i j)))
                      a (seqZ 0 w)) = shape a).
  { intros a' i Ha'.
    destruct (foldl_rows
                (fun j rs => alter (fun row => <[Z.to_nat j :=
                                       f32_of_f64 (gradient h w i j)]> row)
                               (Z.to_nat i) rs)
                (fun a j => set_item a i j (f32_of_f64 (gradient h w i j)))
                (seqZ 0 w) a') as [-> ->]; [reflexivity..|].
    split; [|reflexivity].
    rewrite (foldl_alter_same
               (fun j row => <[Z.to_nat j := f32_of_f64 (gradient h w i j)]> row)).
    unfold inner. apply list_eq. intros k.
    destruct (decide (k = Z.to_nat i)) as [->|Hne].
    - rewrite !list_lookup_alter_eq.
      destruct (rows a' !! Z.to_nat i) as [row|] eqn:Hrow; [|reflexivity].
      cbn. f_equal. apply fill_row.
      eapply Forall_lookup_1 in Ha'; [|exact Hrow]. exact Ha'.
    - rewrite !list_lookup_alter_ne by congruence. reflexivity. }
  (* all rows keep their length under [inner] *)
  assert (Hkeep : forall i rs,
             Forall (fun row => List.length row = Z.to_nat w) rs ->
             Forall (fun row => List.length row = Z.to_nat w) (inner i rs)).
  { intros i rs Hrs. unfold inner. apply Forall_alter; [exact Hrs|].
    intros row _ _. rewrite length_fmap, length_seqZ. reflexivity. }
  assert (Houter : forall (ys : list Z) (a : ndarray spec_float),
             Forall (fun row => List.length row = Z.to_nat w) (rows a) ->
             rows (foldl (fun a i =>
                            foldl (fun a j => set_item a i j
                                               (f32_of_f64 (gradient h w i j)))
                              a (seqZ 0 w)) a ys)
             = foldl (fun rs i => inner i rs) (rows a) ys /\
             shape (foldl (fun a i =>
                             foldl (fun a j => set_item a i j
                                                (f32_of_f64 (gradient h w i j)))
                               a (seqZ 0 w)) a ys) = shape a).
  { induction ys as [|i ys IH]; intros a' Ha'; cbn [foldl]; [auto|].
    destruct (Hin a' i Ha') as [Hr1 Hs1].
    destruct (IH _ ltac:(rewrite Hr1; apply Hkeep, Ha')) as [-> ->].
    rewrite Hr1, Hs1. auto. }
  destruct (Houter (seqZ 0 h) a Hr) as [-> ->]. split; [|exact Hs].
  rewrite (seqZ_as_seq h), foldl_fmap.
  apply list_eq. intros k.
  assert (Heq : forall (rs : list (list spec_float)) (i : nat),
             inner (Z.of_nat i) rs
             = alter (fun _ => (fun x => f32_of_f64 (gradient h w (Z.of_nat i) x))
                                 <$> seqZ 0 w) i rs).
  { intros rs i. unfold inner. rewrite Nat2Z.id. reflexivity. }
  rewrite (foldl_ext_all _ (fun rs i =>
             alter (fun _ => (fun x => f32_of_f64 (gradient h w (Z.of_nat i) x))
                               <$> seqZ 0 w) i rs))
    by apply Heq.
  rewrite (foldl_alter_lookup
             (fun i _ => (fun x => f32_of_f64 (gradient h w (Z.of_nat i) x))
                           <$> seqZ 0 w)) by apply NoDup_seq.
  rewrite <- list_fmap_compose, list_lookup_fmap.
  destruct (decide (k ∈ seq 0 (Z.to_nat h))) as [Hk|Hn].
  - apply elem_of_seq in Hk. rewrite lookup_seq_lt by lia.
    destruct (lookup_lt_is_Some_2 (rows a) k ltac:(lia)) as [x ->]. reflexivity.
  - rewrite lookup_seq_ge by (rewrite elem_of_seq in Hn; lia).
    apply lookup_ge_None. rewrite elem_of_seq in Hn. lia.
Qed.

Lemma zip_with_fmap_same {A B C D} (f : B -> C -> D) (a : A -> B) (b : A -> C)
    (l : list A) :
  zip_with f (a <$> l) (b <$> l) = (fun x => f (a x) (b x)) <$> l.
Proof. induction l as [|x l IH]; cbn; [reflexivity|]. f_equal. apply IH. Qed.

Lemma create_mock_closed_form (self : converter) (width height : Z)
    (st : state E) :
  snd (_create_mock_temperature_data E self (Some (width, height)) st)
  = if (height <? 0) || (width <? 0) then Raise ValueError
    else Ok (Pure.synthetic_grid E width height).
Proof.
  unfold _create_mock_temperature_data, bind, ret, logger, lift. cbn.
  destruct (np_zeros height width) as [zeros|e] eqn:Hz.
  - pose proof (np_zeros_dims _ _ _ Hz) as (Hh & Hw & Hd).
    unfold np_zeros in Hz.
    destruct ((height <? 0) || (width <? 0)); [discriminate|].
    cbn. f_equal. unfold iadd, Pure.synthetic_grid.
    destruct (fill_gradient_rows height width zeros Hd) as [-> ->].
    f_equal. unfold hot_spot_array. cbn [rows].
    rewrite zip_with_fmap_same. apply list_fmap_ext. intros _ y _.
    rewrite zip_with_fmap_same. reflexivity.
  - unfold np_zeros in Hz.
    destruct ((height <? 0) || (width <? 0)); [|discriminate].
    cbn. congruence.
Qed.

(** The two passes of the generator (the nested loops that store the
    gradient cell by cell, then the in-place addition of the broadcast hot
    spots) produce, for every non-negative resolution, the grid whose cell
    in row [y] and column [x] is the gradient narrowed to [float32], widened,
    added to the sum of the two hot spots in doubles and narrowed again; a
    negative dimension raises [ValueError]. *)
Theorem synthetic_grid_closed_form (self : converter) (width height : Z)
    (st : state E) :
  snd (_create_mock_temperature_data E self (Some (width, height)) st)
  = if (height <? 0) || (width <? 0) then Raise ValueError
    else Ok (Pure.synthetic_grid E width height).
Proof. apply create_mock_closed_form. Qed.

End Fill.

(** ** The generator narrows twice *)

Section Narrowing.

Context (E : Env).

(** The cell of the closed form. *)
Lemma synthetic_grid_cell (width height : Z) (i j : nat) :
  Z.of_nat i < height -> Z.of_nat j < width ->
  cell (Pure.synthetic_grid E width height) i j
  = Some (Pure.synthetic_cell E width height (Z.of_nat j) (Z.of_nat i)).
Proof.
  intros Hi Hj. unfold cell, Pure.synthetic_grid. cbn [rows].
  change (map ?f ?l) with (f <$> l).
  rewrite list_lookup_fmap, (lookup_seqZ_lt 0 height i Hi). cbn.
  change (map ?f ?l) with (f <$> l).
  rewrite list_lookup_fmap, (lookup_seqZ_lt 0 width j Hj). reflexivity.
Qed.

(** C4 (amended).  For every width > 0, height > 0 and every pixel (row
    [i], column [j]) of the grid, the generator returns a grid of shape
    (height, width) whose cell is computed in doubles and narrowed twice:
    the baseline [20.0 + 20.0 * (i / height) * (j / width)] is stored as
    [float32]; the two hot spots are added to each other in doubles; their
    sum is added to the stored baseline, widened again, and the result is
    narrowed to [float32].  Nothing is clamped. *)
Theorem synthetic_cell_narrows_twice (self : converter) (width height : Z)
    (st : state E) (i j : nat) :
  0 < width -> 0 < height -> Z.of_nat i < height -> Z.of_nat j < width ->
  let center_x := width / 2 in
  let center_y := height / 2 in
  let baseline := gradient height width (Z.of_nat i) (Z.of_nat j) in
  let hot_spot1 :=
    hot_spot E 60 50 (distance1 center_x center_y (Z.of_nat j) (Z.of_nat i)) in
  let hot_spot2 :=
    hot_spot E 45 30 (distance2 center_x center_y (Z.of_nat j) (Z.of_nat i)) in
  exists data,
    snd (_create_mock_temperature_data E self (Some (width, height)) st) = Ok data /\
    shape data = (height, width) /\
    cell data i j
    = Some (f32_of_f64 (f64_add (f64_of_f32 (f32_of_f64 baseline))
                          (f64_add hot_spot1 hot_spot2))).
Proof.
  intros Hw Hh Hi Hj. cbv zeta.
  exists (Pure.synthetic_grid E width height).
  rewrite create_mock_closed_form.
  replace (height <? 0) with false by lia. replace (width <? 0) with false by lia.
  split; [reflexivity|]. split; [reflexivity|].
  rewrite synthetic_grid_cell by assumption. reflexivity.
Qed.

End Narrowing.

Lemma synthetic_cell_narrows_twice_witness :
  0 < 10 /\ 0 < 10 /\ Z.of_nat 8 < 10 /\ Z.of_nat 9 < 10 /\
  exists data,
    snd (_create_mock_temperature_data Runs.libm_env (init None) (Some (10, 10))
           (Build_state Runs.libm_env ∅ [])) = Ok data /\
    cell data 8 9 = Some (S754_finite false 11669658 (-17)).
Proof.
  do 4 (split; [lia|]).
  destruct (synthetic_cell_narrows_twice Runs.libm_env (init None) 10 10
              (Build_state Runs.libm_env ∅ []) 8 9 eq_refl eq_refl eq_refl eq_refl)
    as (data & Hd & _ & Hc).
  exists data. split; [exact Hd|]. rewrite Hc. vm_compute. reflexivity.
Defined.

(** C4, as stated, fails: in a 10 by 10 grid, with the values glibc's [exp]
    returns, the cell of row 8 and column 9 is [0x1.642134p+6], while
    baseline + hot spot 1 + hot spot 2 narrowed once to [float32] is
    [0x1.642132p+6], whichever way the sum is grouped. *)
Lemma synthetic_cell_is_not_one_narrowing :
  exists data,
    snd (_create_mock_temperature_data Runs.libm_env (init None) (Some (10, 10))
           (Build_state Runs.libm_env ∅ [])) = Ok data /\
    cell data 8 9 = Some (S754_finite false 11669658 (-17)) /\
    claimed_cell Runs.libm_env 10 10 8 9 = S754_finite false 11669657 (-17) /\
    cell data 8 9 <> Some (claimed_cell Runs.libm_env 10 10 8 9) /\
    f32_of_f64
      (f64_add (gradient 10 10 8 9)
         (f64_add (hot_spot Runs.libm_env 60 50 (distance1 5 5 9 8))
            (hot_spot Runs.libm_env 45 30 (distance2 5 5 9 8))))
    = S754_finite false 11669657 (-17).
Proof.
  eexists. split; [vm_compute; reflexivity|].
  split; [vm_compute; reflexivity|]. split; [vm_compute; reflexivity|].
  split; [vm_compute; discriminate|]. vm_compute. reflexivity.
Qed.
(** ** Methods that only read the file system *)

Section Reading.

Context (E : Env).

Lemma reads_ret {A} (a : A) (st : state E) : Pure.reads_as (ret E a) st (Ok a).
Proof. split; reflexivity. Qed.

Lemma reads_raise {A} (e : exn) (st : state E) :
  Pure.reads_as (raise E (A:=A) e) st (Raise e).
Proof. split; reflexivity. Qed.

Lemma reads_lift {A} (r : result A) (st : state E) : Pure.reads_as (lift E r) st r.
Proof. split; reflexivity. Qed.

Lemma reads_logger (x : log_record) (st : state E) :
  Pure.reads_as (logger E x) st (Ok tt).
Proof. split; reflexivity. Qed.

Lemma reads_reading {A} (f : world E -> result A) (st : state E) :
  Pure.reads_as (reading E f) st (f (fs E st)).
Proof. split; reflexivity. Qed.

Lemma reads_bind {A B} (c : M E A) (k : A -> M E B) (st : state E)
    (ra : result A) (rb : result B) :
  Pure.reads_as c st ra ->
  match ra with
  | Ok a => forall st', fs E st' = fs E st -> Pure.reads_as (k a) st' rb
  | Raise e => rb = Raise e
  end ->
  Pure.reads_as (bind E c k) st rb.
Proof.
  intros [Hf Hr] Hk. unfold Pure.reads_as, bind.
  destruct (c st) as [st' r]. cbn [fst snd] in *. subst r.
  destruct ra as [a|e].
  - destruct (Hk st' Hf) as [Hf' Hr']. rewrite Hf', Hf. auto.
  - subst rb. auto.
Qed.

Lemma reads_try {A} (c : M E A) (h : exn -> M E A) (st : state E)
    (ra rb : result A) :
  Pure.reads_as c st ra ->
  match ra with
  | Ok a => rb = Ok a
  | Raise e => forall st', fs E st' = fs E st -> Pure.reads_as (h e) st' rb
  end ->
  Pure.reads_as (try_except E c h) st rb.
Proof.
  intros [Hf Hr] Hk. unfold Pure.reads_as, try_except.
  destruct (c st) as [st' r]. cbn [fst snd] in *. subst r.
  destruct ra as [a|e].
  - subst rb. auto.
  - destruct (Hk st' Hf) as [Hf' Hr']. rewrite Hf', Hf. auto.
Qed.

Lemma reads_detect (self : converter) (path : string) (st : state E) :
  Pure.reads_as (_detect_image_resolution E self path) st
    (match Pure.detected E self (fs E st) path with
     | Some size => Ok size
     | None => Raise KeyError
     end).
Proof.
  unfold _detect_image_resolution, Pure.detected.
  eapply reads_try.
  - eapply reads_bind; [apply reads_reading|].
    instantiate (1 := match pil_open_size E (fs E st) path with
                      | Ok size => Ok size | Raise e => Raise e end).
    destruct (pil_open_size E (fs E st) path) as [[w h]|e]; [|reflexivity].
    intros st' _. eapply reads_bind; [apply reads_logger|].
    intros st'' _. apply reads_ret.
  - destruct (pil_open_size E (fs E st) path) as [[w h]|e]; [reflexivity|].
    intros st' _. eapply reads_bind; [apply reads_logger|].
    intros st'' _.
    destruct (device_configs self !! default_model self) as [cfg|]; cbn;
      [apply reads_ret|apply reads_raise].
Qed.

Lemma reads_create_mock (self : converter) (width height : Z) (st : state E) :
  Pure.reads_as (_create_mock_temperature_data E self (Some (width, height))) st
    (if (height <? 0) || (width <? 0) then Raise ValueError
     else Ok (Pure.synthetic_grid E width height)).
Proof.
  split.
  - apply create_mock_result.
  - apply create_mock_closed_form.
Qed.

Lemma reads_parse (self : converter) (data : string) (width height : Z)
    (st : state E) :
  Pure.reads_as (_parse_rjpeg_with_sdk E self data (Some (width, height))) st
    (if (height <? 0) || (width <? 0) then Raise ValueError
     else Ok (Pure.synthetic_grid E width height)).
Proof.
  destruct (parse_rjpeg_result E self data (Some (width, height)) st)
    as (st' & Heq & Hfs).
  unfold Pure.reads_as. rewrite Heq.
  destruct (reads_create_mock self width height st') as [H1 H2].
  rewrite H1, H2, Hfs. auto.
Qed.

Lemma reads_extract (self : converter) (path : string) (st : state E) :
  Pure.reads_as (extract_temperature_data E self path) st
    (Pure.extract_outcome E self (fs E st) path).
Proof.
  unfold extract_temperature_data.
  eapply reads_try with (ra := Pure.extract_outcome E self (fs E st) path).
  2:{ destruct (Pure.extract_outcome E self (fs E st) path); [reflexivity|].
      intros st' _. eapply reads_bind; [apply reads_logger|].
      intros st'' _. apply reads_raise. }
  unfold Pure.extract_outcome.
  eapply reads_bind; [apply reads_detect|].
  destruct (Pure.detected E self (fs E st) path) as [[w h]|]; [|reflexivity].
  intros st1 H1. eapply reads_bind; [apply reads_reading|]. rewrite H1.
  destruct (read_bytes E (fs E st) path) as [bytes|e]; [|reflexivity].
  intros st2 H2. eapply reads_bind; [apply reads_logger|].
  intros st3 H3. eapply (reads_bind _ _ _ (Ok tt)).
  { destruct (is_initialized self); [apply reads_ret|].
    eapply reads_bind; [apply reads_logger|]. intros ? _. apply reads_logger. }
  intros st4 H4. eapply reads_bind; [apply reads_parse|].
  destruct ((h <? 0) || (w <? 0)); [reflexivity|].
  intros st5 H5. eapply reads_bind; [apply reads_reading|].
  intros st6 H6.
  replace (fs E st5) with (fs E st) by congruence.
  apply reads_ret.
Qed.

End Reading.
(** ** Extraction, and what failures leave behind *)

Section Extraction.

Context (E : Env).

(** On success the metadata agrees with the grid and with the converter. *)
Theorem extract_metadata_invariants (self : converter) (rjpeg_path : string)
    (st st' : state E) (data : ndarray spec_float) (md : metadata) :
  extract_temperature_data E self rjpeg_path st = (st', Ok (data, md)) ->
  fs E st' = fs E st /\
  is_real_data md = is_initialized self /\
  (warning md = None <-> is_real_data md = true) /\
  device_model md = default_model self /\
  detected_resolution md = (detected_width md, detected_height md) /\
  data_shape md = shape data /\
  shape data = (detected_height md, detected_width md) /\
  has_dims (detected_height md) (detected_width md) data /\
  0 <= detected_width md /\ 0 <= detected_height md /\
  exists rjpeg_data,
    read_bytes E (fs E st) rjpeg_path = Ok rjpeg_data /\
    file_size md = Z.of_nat (String.length rjpeg_data).
Proof.
  intros Hx. destruct (reads_extract E self rjpeg_path st) as [Hfs Hr].
  rewrite Hx in Hfs, Hr. cbn [fst snd] in Hfs, Hr.
  split; [exact Hfs|]. symmetry in Hr. unfold Pure.extract_outcome in Hr.
  destruct (Pure.detected E self (fs E st) rjpeg_path) as [[w h]|]; [|discriminate].
  destruct (read_bytes E (fs E st) rjpeg_path) as [bytes|e]; [|discriminate].
  destruct (Z.ltb_spec h 0); [discriminate|].
  destruct (Z.ltb_spec w 0); [discriminate|].
  cbn [orb] in Hr. injection Hr as <- <-. cbn.
  split; [reflexivity|]. split.
  { destruct (is_initialized self); split; congruence. }
  repeat (split; [reflexivity|]).
  split.
  { unfold has_dims, Pure.synthetic_grid. cbn [shape rows].
    split; [reflexivity|]. split.
    - rewrite length_fmap, length_seqZ. reflexivity.
    - apply Forall_fmap, Forall_forall. intros y _. cbn.
      rewrite length_fmap, length_seqZ. reflexivity. }
  split; [lia|]. split; [lia|]. exists bytes. auto.
Qed.

(** Extraction fails exactly when the bytes cannot be read or a detected
    dimension is negative; a failed resolution detection alone never fails
    it, and the file system is never changed. *)
Theorem extract_failure_conditions (self : converter) (rjpeg_path : string)
    (st : state E) :
  is_Some (device_configs self !! default_model self) ->
  fs E (fst (extract_temperature_data E self rjpeg_path st)) = fs E st /\
  exists width height,
    Pure.detected E self (fs E st) rjpeg_path = Some (width, height) /\
    match read_bytes E (fs E st) rjpeg_path with
    | Raise e => snd (extract_temperature_data E self rjpeg_path st) = Raise e
    | Ok _ =>
        if (height <? 0) || (width <? 0)
        then snd (extract_temperature_data E self rjpeg_path st) = Raise ValueError
        else is_ok (snd (extract_temperature_data E self rjpeg_path st)) = true
    end.
Proof.
  intros [cfg Hcfg]. destruct (reads_extract E self rjpeg_path st) as [Hfs Hr].
  split; [exact Hfs|]. rewrite Hr. unfold Pure.extract_outcome.
  assert (Hd : is_Some (Pure.detected E self (fs E st) rjpeg_path)).
  { unfold Pure.detected. rewrite Hcfg.
    destruct (pil_open_size E (fs E st) rjpeg_path); eexists; reflexivity. }
  destruct Hd as [[w h] Hd]. exists w, h. split; [exact Hd|]. rewrite Hd.
  destruct (read_bytes E (fs E st) rjpeg_path); [|reflexivity].
  destruct ((h <? 0) || (w <? 0)); reflexivity.
Qed.

(** A loaded SDK changes the flag, not the data: the grid is the synthetic
    one of the detected resolution either way. *)
Theorem loaded_sdk_still_returns_synthetic_grid (handle : Z) (rjpeg_path : string)
    (st st' : state E) (data : ndarray spec_float) (md : metadata) :
  extract_temperature_data E (init (Some handle)) rjpeg_path st
  = (st', Ok (data, md)) ->
  is_real_data md = true /\ warning md = None /\
  data = Pure.synthetic_grid E (detected_width md) (detected_height md) /\
  exists md0,
    snd (extract_temperature_data E (init None) rjpeg_path st) = Ok (data, md0) /\
    is_real_data md0 = false.
Proof.
  intros Hx. destruct (reads_extract E (init (Some handle)) rjpeg_path st) as [_ Hr].
  destruct (reads_extract E (init None) rjpeg_path st) as [_ Hr0].
  rewrite Hx in Hr. cbn [snd] in Hr. symmetry in Hr. rewrite Hr0.
  unfold Pure.extract_outcome in *.
  change (Pure.detected E (init None) (fs E st) rjpeg_path)
    with (Pure.detected E (init (Some handle)) (fs E st) rjpeg_path).
  destruct (Pure.detected E (init (Some handle)) (fs E st) rjpeg_path)
    as [[w h]|]; [|discriminate].
  destruct (read_bytes E (fs E st) rjpeg_path) as [bytes|e]; [|discriminate].
  destruct ((h <? 0) || (w <? 0)); [discriminate|].
  injection Hr as <- <-. cbn.
  repeat (split; [reflexivity|]). eexists. split; reflexivity.
Qed.

(** When the extraction fails (the input cannot be read, say) the job
    returns [False] and the file system is as it was: nothing is written. *)
Theorem failed_extraction_writes_nothing (self : converter)
    (input_path output_path : string) (st : state E) :
  is_ok (snd (extract_temperature_data E self input_path st)) = false ->
  snd (convert_rjpeg_to_tiff E self input_path output_path st) = Ok false /\
  fs E (fst (convert_rjpeg_to_tiff E self input_path output_path st)) = fs E st.
Proof.
  intros Hx. destruct (reads_extract E self input_path st) as [_ Hr].
  rewrite Hr in Hx.
  destruct (Pure.extract_outcome E self (fs E st) input_path) as [p|e] eqn:Ho;
    [discriminate|].
  enough (Hc : Pure.reads_as (convert_rjpeg_to_tiff E self input_path output_path) st
                 (Ok false)) by (destruct Hc; auto).
  unfold convert_rjpeg_to_tiff.
  eapply reads_try with (ra := Raise e).
  - eapply reads_bind; [apply reads_logger|]. intros st1 H1.
    eapply reads_bind; [apply reads_extract|]. rewrite H1, Ho. reflexivity.
  - intros st1 _. eapply reads_bind; [apply reads_logger|].
    intros st2 _. apply reads_ret.
Qed.

(** A write that raises is not undone: the encoder returns [False], logs the
    error, and leaves whatever the failed write left. *)
Theorem failed_write_is_not_rolled_back (self : converter)
    (data : ndarray spec_float) (md : metadata) (output_path compression : string)
    (st : state E) (w2 : world E) (e : exn) :
  snd (makedirs_step E output_path (fs E st)) = Ok tt ->
  pil_fromarray_check E (temp_scaled E data) = Ok tt ->
  write_step E data md output_path compression
    (fst (makedirs_step E output_path (fs E st))) = (w2, Raise e) ->
  save_temperature_tiff E self data md output_path compression st
  = ({| fs := w2; log := log E st ++ [ERROR (TiffSaveFailed e)] |}, Ok false).
Proof.
  unfold makedirs_step, write_step, save_temperature_tiff, Image_fromarray.
  unfold bind, try_except, ret, raise, reading, writing, logger, lift.
  destruct (string_dec (path_dirname E output_path) "") as [Hd|Hd]; cbn.
  - intros _ -> ->. reflexivity.
  - destruct (os_makedirs E _ (fs E st)) as [w1 r1]. cbn.
    intros -> -> ->. reflexivity.
Qed.

End Extraction.

Lemma extract_metadata_invariants_witness :
  exists st' data md,
    extract_temperature_data Sim.env (init None) "in/DJI_0001_T.jpg"
      (Sim.start Runs.jpeg_world) = (st', Ok (data, md)) /\
    is_real_data md = false /\ data_shape md = (1, 2) /\ shape data = (1, 2).
Proof.
  destruct (extract_temperature_data Sim.env (init None) "in/DJI_0001_T.jpg"
              (Sim.start Runs.jpeg_world)) as [st' [[data md]|e]] eqn:Hx.
  - exists st', data, md. split; [reflexivity|].
    pose proof (extract_metadata_invariants Sim.env _ _ _ _ _ _ Hx)
      as (_ & Hreal & _ & _ & _ & Hshape & Hdims & _).
    assert (Hm : md = snd (match snd (extract_temperature_data Sim.env (init None)
                                        "in/DJI_0001_T.jpg" (Sim.start Runs.jpeg_world))
                           with Ok p => p | Raise _ => (data, md) end))
      by (rewrite Hx; reflexivity).
    split; [exact Hreal|]. rewrite Hshape, Hdims, Hm. vm_compute. auto.
  - exfalso. apply (f_equal snd) in Hx. vm_compute in Hx. discriminate.
Defined.
(** ** More on the scaling *)

Section Scaling.

Context (E : Env).

Lemma wrap16_in_int16 (z : Z) : in_int16 (wrap16 z) = true.
Proof.
  unfold in_int16, wrap16, int16_min, int16_max.
  pose proof (Z.mod_pos_bound (z + 32768) 65536 ltac:(lia)). lia.
Qed.

Lemma scale_cell_in_int16 (t : spec_float) : in_int16 (scale_cell E t) = true.
Proof.
  unfold scale_cell, astype_int16.
  destruct (SFtrunc (f32_mul t f32_ten)) as [z|]; [|apply wrap16_in_int16].
  destruct (in_int16 z) eqn:Hz; [exact Hz|apply wrap16_in_int16].
Qed.

(** Whatever the grid holds (NaN and infinities included) and whatever the
    hardware does out of range, the scaled array has the grid's shape, one
    value for each cell, and every value is an int16. *)
Theorem temp_scaled_is_an_int16_array (data : ndarray spec_float) :
  shape (temp_scaled E data) = shape data /\
  List.length (rows (temp_scaled E data)) = List.length (rows data) /\
  (forall i j, cell (temp_scaled E data) i j = scale_cell E <$> cell data i j) /\
  Forall (Forall (fun z => in_int16 z = true)) (rows (temp_scaled E data)).
Proof.
  split; [reflexivity|]. split; [apply length_fmap|]. split.
  - intros i j. apply cell_nd_map.
  - unfold temp_scaled, nd_map. cbn [rows].
    apply Forall_fmap, Forall_forall. intros row _. cbn.
    apply Forall_fmap, Forall_forall. intros t _. cbn. apply scale_cell_in_int16.
Qed.

(** A temperature whose tenfold is an integer of the int16 range is stored
    exactly: reading back gives the temperature itself. *)
Theorem tenths_are_stored_exactly (t : spec_float) (n : Z) :
  valid_binary 24 128 t = true ->
  is_finite t = true ->
  (10 * SF2Q t == inject_Z n)%Q ->
  in_int16 n = true ->
  scale_cell E t = n /\ (read_back (scale_cell E t) == SF2Q t)%Q.
Proof.
  intros Hv Hf Hn Hr.
  assert (Hgoal : scale_cell E t = n).
  { unfold in_int16, int16_min, int16_max in Hr.
    destruct t as [s|s| |s m e]; try discriminate.
    - assert (n = 0) by (unfold Qeq in Hn; cbn in Hn; lia).
      subst n. reflexivity.
    - cbn [valid_binary] in Hv.
      assert (Hlo : (inject_Z (-3277) <= SF2Q (S754_finite s m e))%Q).
      { assert ((inject_Z (-32768) <= inject_Z n)%Q) by (rewrite <- Zle_Qle; lia).
        change (inject_Z (-3277)) with (-3277 # 1)%Q.
        change (inject_Z (-32768)) with (-32768 # 1)%Q in *. lra. }
      assert (Hhi : (SF2Q (S754_finite s m e) <= inject_Z 3277)%Q).
      { assert ((inject_Z n <= inject_Z 32767)%Q) by (rewrite <- Zle_Qle; lia).
        change (inject_Z 3277) with (3277 # 1)%Q.
        change (inject_Z 32767) with (32767 # 1)%Q in *. lra. }
      destruct (small_float_exponent s m e (-3277) 3277 Hv) as [He _];
        [change (2 ^ 23) with 8388608; lia..|assumption|assumption|].
      pose proof (SF2Q_ten_scaled s m e ltac:(lia)) as Hq0.
      assert (Hq : n * 2 ^ (20 - e) = cond_Zopp s (Zpos (m * 10485760))).
      { apply inject_Z_injective. rewrite inject_Z_mult, <- Hn. exact Hq0. }
      clear Hq0.
      assert (HP : 0 < 2 ^ (20 - e)) by lia.
      assert (HM : Zpos (m * 10485760) = Z.abs n * 2 ^ (20 - e) /\
                   n = cond_Zopp s (Z.abs n)).
      { assert (HMpos : 0 < Zpos (m * 10485760)) by lia.
        revert Hq HMpos. generalize (Zpos (m * 10485760)) as M.
        generalize dependent (2 ^ (20 - e)). intros P HP M Hq HMpos.
        unfold cond_Zopp in *. destruct s.
        - assert (n < 0) by nia. rewrite Z.abs_neq by lia. split; lia.
        - assert (0 < n) by nia. rewrite Z.abs_eq by lia. split; lia. }
      destruct HM as [HM Hsn].
      destruct (mul_ten_bound s m e (Z.abs n) Hv) as (z & Hz & Hzb);
        [change (2 ^ 23) with 8388608; lia|lia|lia|].
      destruct (mul_ten_error s m e z Hv Hz ltac:(lia)) as [_ [H1 H2]].
      assert (Habs : Z.abs z = Z.abs n) by nia.
      destruct (mul_ten_spec m e Hv) as (m2 & e' & Hk & _ & _ & Hm2 & _ & Htr & _).
      pose proof (Htr s z Hz) as Hzs.
      assert (Hu : 0 <= utrunc m2 e').
      { apply utrunc_nonneg.
        assert (0 <= Zpos (m * 10485760) / 2 ^ (e' - (e - 20)))
          by (apply Z.div_pos; lia). lia. }
      rewrite Hzs, cond_Zopp_abs in Habs by exact Hu.
      assert (Hzn : z = n) by (rewrite Hzs, Habs; symmetry; exact Hsn).
      rewrite Hzn in Hz. apply scale_cell_in_range; [exact Hz|].
      unfold in_int16, int16_min, int16_max. lia. }
  split; [exact Hgoal|]. rewrite Hgoal. unfold read_back, Qdiv.
  change (/ 10)%Q with (1 # 10)%Q. rewrite <- Hn. ring.
Qed.

(** Dropping the fraction is symmetric about zero: the negated temperature
    is stored as the negated value. *)
Theorem scaling_is_odd (t : spec_float) (z : Z) :
  valid_binary 24 128 t = true ->
  SFtrunc (f32_mul t f32_ten) = Some z ->
  - 32767 <= z <= 32767 ->
  scale_cell E t = z /\ scale_cell E (SFopp t) = - z.
Proof.
  intros Hv Hz Hr.
  split; [apply scale_cell_in_range;
          [exact Hz|unfold in_int16, int16_min, int16_max; lia]|].
  apply scale_cell_in_range; [|unfold in_int16, int16_min, int16_max; lia].
  destruct t as [s|s| |s m e]; try discriminate.
  - cbn in Hz. injection Hz as <-. reflexivity.
  - cbn [valid_binary SFopp] in *.
    destruct (mul_ten_spec m e Hv) as (m2 & e' & Hk & He' & Hn & Hm2 & _ & Htr & Hall).
    pose proof (Htr s z Hz) as Hzs.
    assert (Hm1 : 0 <= Zpos (m * 10485760) / 2 ^ (e' - (e - 20)))
      by (apply Z.div_pos; lia).
    assert (Hu : 0 <= utrunc m2 e') by (apply utrunc_nonneg; lia).
    assert (Hle : e' <= 103).
    { destruct (Z_le_gt_dec e' 103) as [|Hgt]; [assumption|exfalso].
      specialize (Hn ltac:(lia)). change (2 ^ 23) with 8388608 in Hn.
      assert (Habs : Z.abs z = utrunc m2 e') by (rewrite Hzs; apply cond_Zopp_abs, Hu).
      unfold utrunc in Habs. destruct (Z.leb_spec 0 e'); [|lia].
      assert (1 <= 2 ^ e') by lia. nia. }
    rewrite (Hall Hle (negb s)). f_equal. rewrite Hzs.
    unfold cond_Zopp. destruct s; cbn; lia.
Qed.

End Scaling.
(** ** More on the registry *)

(** [validate_temperature_range] is monotone in the range: a temperature
    valid for one model is valid for every model whose range contains the
    first one's, and it is a finite number. *)
Theorem validation_is_monotone_in_the_range (t : spec_float) (m1 m2 : string)
    (c1 c2 : Config.model_config) :
  Config.get_model_config m1 = Ok c1 ->
  Config.get_model_config m2 = Ok c2 ->
  fst (Config.temperature_range c2) <= fst (Config.temperature_range c1) ->
  snd (Config.temperature_range c1) <= snd (Config.temperature_range c2) ->
  Config.validate_temperature_range t m1 = Ok true ->
  Config.validate_temperature_range t m2 = Ok true /\ is_finite t = true.
Proof.
  unfold Config.validate_temperature_range. intros -> -> Hlo Hhi.
  destruct (Config.temperature_range c1) as [lo1 hi1].
  destruct (Config.temperature_range c2) as [lo2 hi2]. cbn [fst snd] in *.
  intros [= Hv]. apply andb_prop in Hv as [Hv H2]. apply andb_prop in Hv as [Hf H1].
  split; [|exact Hf]. f_equal. rewrite Hf. cbn [andb].
  apply Qle_bool_iff in H1, H2.
  apply andb_true_intro. split; apply Qle_bool_iff.
  - eapply Qle_trans; [|exact H1]. rewrite <- Zle_Qle. exact Hlo.
  - eapply Qle_trans; [exact H2|]. rewrite <- Zle_Qle. exact Hhi.
Qed.

(** [validate_temperature_range] raises [ValueError] exactly when the
    uppercased id is not a registered model, matches the id whatever its
    letter case, and never accepts NaN or an infinity. *)
Theorem validation_errors_and_non_numbers (t : spec_float) (model : string) :
  (Config.validate_temperature_range t model = Raise ValueError
   <-> upper model ∉ Config.get_supported_models) /\
  (is_ok (Config.validate_temperature_range t model) = true
   <-> upper model ∈ Config.get_supported_models) /\
  Config.validate_temperature_range t model
  = Config.validate_temperature_range t (upper model) /\
  (if is_finite t then True
   else Config.validate_temperature_range t model <> Ok true).
Proof.
  unfold Config.validate_temperature_range, Config.get_model_config.
  rewrite upper_idempotent.
  pose proof (DRONE_MODELS_lookup_None (upper model)) as Hn.
  destruct (Config.DRONE_MODELS !! upper model) as [cfg|] eqn:Hl.
  - destruct (Config.temperature_range cfg) as [lo hi].
    assert (Hin : upper model ∈ Config.get_supported_models).
    { destruct (decide (upper model ∈ Config.get_supported_models)) as [|Hne];
        [assumption|]. apply Hn in Hne. discriminate. }
    split; [split; [discriminate|intros H; contradiction]|].
    split; [split; [intros _; exact Hin|reflexivity]|].
    split; [reflexivity|].
    destruct (is_finite t); [exact I|discriminate].
  - assert (Hnin : upper model ∉ Config.get_supported_models) by (apply Hn; reflexivity).
    split; [split; [intros _; exact Hnin|reflexivity]|].
    split; [split; [discriminate|intros H; contradiction]|].
    split; [reflexivity|].
    destruct (is_finite t); [exact I|discriminate].
Qed.

Section PathsProofs.

Import Paths.

Lemma append_cons (a : ascii) (x y : string) :
  (String a x ++ y)%string = String a (x ++ y)%string.
Proof. reflexivity. Qed.

Lemma append_nil (y : string) : (EmptyString ++ y)%string = y.
Proof. reflexivity. Qed.

Lemma append_nil_r (x : string) : (x ++ EmptyString)%string = x.
Proof. induction x as [|a x IH]; [reflexivity|]. rewrite append_cons, IH. reflexivity. Qed.

Lemma str_take_drop (n : nat) (s : string) : (str_take n s ++ str_drop n s)%string = s.
Proof.
  revert s. induction n as [|n IH]; intros [|a s]; cbn [str_take str_drop];
    try reflexivity.
  rewrite append_cons, IH. reflexivity.
Qed.

Lemma splitext_concat (p : string) :
  (fst (splitext p) ++ snd (splitext p))%string = p.
Proof.
  unfold splitext.
  destruct ((rfind "/" p <? rfind "." p)
            && has_non_dot p (rfind "/" p + 1) (rfind "." p)); cbn.
  - apply str_take_drop.
  - apply append_nil_r.
Qed.

Lemma lower_app (a b : string) : lower (a ++ b)%string = (lower a ++ lower b)%string.
Proof.
  unfold lower. induction a as [|c a IH]; [reflexivity|].
  rewrite append_cons. cbn [str_map]. rewrite IH, append_cons. reflexivity.
Qed.

Lemma endswith_unfold (p s : string) :
  endswith p s
  = (if string_dec p s then true else false)
    || match s with
       | EmptyString => false
       | String _ s' => endswith p s'
       end.
Proof. destruct s; reflexivity. Qed.

Lemma endswith_refl (p : string) : endswith p p = true.
Proof.
  rewrite endswith_unfold.
  destruct (string_dec p p); [reflexivity|contradiction].
Qed.

Lemma endswith_app (p a : string) : endswith p (a ++ p)%string = true.
Proof.
  induction a as [|c a IH].
  - rewrite append_nil. apply endswith_refl.
  - rewrite append_cons, endswith_unfold, IH. apply orb_true_r.
Qed.

(** Every name [Config.is_supported_input_format] accepts passes the
    extension test of the batch discovery; the converse fails for a name
    that is only an extension. *)
Theorem supported_format_is_accepted_by_batch (filename : string) :
  (if is_supported_input_format filename then batch_accepts filename = true
   else True) /\
  is_supported_input_format filename
  = bool_decide (lower (snd (splitext filename)) ∈ [".jpg"; ".jpeg"]%string) /\
  (is_supported_input_format ".jpg" = false /\ batch_accepts ".jpg" = true).
Proof.
  assert (Hchar : is_supported_input_format filename
                  = bool_decide (lower (snd (splitext filename))
                                 ∈ [".jpg"; ".jpeg"]%string)).
  { unfold is_supported_input_format. destruct (splitext filename) as [root ext].
    cbn [snd]. apply bool_decide_ext.
    change (map lower SUPPORTED_INPUT_FORMATS)
      with [".jpg"; ".jpeg"; ".jpg"; ".jpeg"]%string.
    rewrite !elem_of_cons, !elem_of_nil. intuition. }
  split; [|split; [exact Hchar|split; reflexivity]].
  rewrite Hchar. destruct (bool_decide _) eqn:Hb; [|exact I].
  apply bool_decide_eq_true in Hb.
  unfold batch_accepts.
  rewrite <- (splitext_concat filename), lower_app.
  apply elem_of_cons in Hb as [->|Hb].
  - rewrite endswith_app. reflexivity.
  - apply elem_of_cons in Hb as [->|Hb]; [|apply elem_of_nil in Hb; contradiction].
    rewrite endswith_app. apply orb_true_r.
Qed.

End PathsProofs.
(** [get_supported_models] lists exactly the keys of the registry: the ids
    that look up unchanged. *)
Theorem supported_models_are_the_keys (model : string) :
  (model ∈ Config.get_supported_models
   <-> is_Some (Config.DRONE_MODELS !! model)) /\
  (model ∈ Config.get_supported_models
   <-> is_ok (Config.get_model_config model) = true /\ upper model = model) /\
  NoDup Config.get_supported_models.
Proof.
  assert (Hkeys : model ∈ Config.get_supported_models
                  <-> is_Some (Config.DRONE_MODELS !! model)).
  { split.
    - intros Hin. destruct (Config.DRONE_MODELS !! model) eqn:Hl; [eauto|].
      apply (DRONE_MODELS_lookup_None model) in Hl. contradiction.
    - intros [c Hc].
      destruct (decide (model ∈ Config.get_supported_models)) as [|Hne];
        [assumption|]. apply (DRONE_MODELS_lookup_None model) in Hne. congruence. }
  split; [exact Hkeys|]. split.
  - split.
    + intros Hin. unfold Config.get_supported_models in Hin.
      repeat (apply elem_of_cons in Hin as [->|Hin]; [split; reflexivity|]).
      apply elem_of_nil in Hin. contradiction.
    + intros [Hok Hup]. apply Hkeys. unfold Config.get_model_config in Hok.
      rewrite Hup in Hok.
      destruct (Config.DRONE_MODELS !! model); [eauto|discriminate].
  - apply (bool_decide_unpack _). vm_compute. exact I.
Qed.

(** The converter's own device table and the registry have the same ids,
    names and temperature ranges; they disagree on the resolution of the
    M30T only. *)
Theorem device_tables_agree_except_on_M30T (model : string) :
  (is_Some (the_device_configs !! model) <-> is_Some (Config.DRONE_MODELS !! model)) /\
  match the_device_configs !! model, Config.DRONE_MODELS !! model with
  | Some d, Some c =>
      name d = Config.name c /\
      temperature_range d = Config.temperature_range c /\
      description d = Config.description c /\
      (resolution d = Config.resolution c <-> model <> "M30T"%string)
  | None, None => True
  | _, _ => False
  end /\
  (resolution <$> the_device_configs !! "M30T"%string = Some (1280, 1024) /\
   Config.resolution <$> Config.DRONE_MODELS !! "M30T"%string = Some (640, 512)).
Proof.
  assert (Hcases : model = "M30T"%string \/ model = "H20T"%string \/
                   model = "H30T"%string \/ model = "M2EA"%string \/
                   (the_device_configs !! model = None /\
                    Config.DRONE_MODELS !! model = None)).
  { destruct (decide (model = "M30T"%string)); [tauto|].
    destruct (decide (model = "H20T"%string)); [tauto|].
    destruct (decide (model = "H30T"%string)); [tauto|].
    destruct (decide (model = "M2EA"%string)); [tauto|].
    right; right; right; right.
    unfold the_device_configs, Config.DRONE_MODELS.
    rewrite !lookup_insert_ne by congruence. rewrite !lookup_empty. auto. }
  destruct Hcases as [->|[->|[->|[->|[H1 H2]]]]].
  5:{ rewrite H1, H2. split; [|split; [exact I|split; reflexivity]].
      split; intros [? [=]]. }
  all: split; [split; intros _; eexists; reflexivity|].
  all: split; [|split; reflexivity].
  all: cbn; repeat split; try discriminate; try congruence.
Qed.

(** ** Concrete runs of the properties that have a precondition *)

Lemma extract_failure_conditions_witness :
  is_Some (device_configs (init None) !! default_model (init None)) /\
  snd (extract_temperature_data Sim.env (init None) "missing.jpg" (Sim.start ∅))
  = Raise OSError.
Proof.
  assert (H : is_Some (device_configs (init None) !! default_model (init None)))
    by (eexists; reflexivity).
  split; [exact H|].
  destruct (extract_failure_conditions Sim.env (init None) "missing.jpg"
              (Sim.start ∅) H) as (_ & w & h & _ & Hr).
  exact Hr.
Defined.

Lemma loaded_sdk_still_returns_synthetic_grid_witness :
  exists st' data md,
    extract_temperature_data Sim.env (init (Some 1)) "in/DJI_0001_T.jpg"
      (Sim.start Runs.jpeg_world) = (st', Ok (data, md)) /\
    is_real_data md = true /\
    exists md0,
      snd (extract_temperature_data Sim.env (init None) "in/DJI_0001_T.jpg"
             (Sim.start Runs.jpeg_world)) = Ok (data, md0) /\
      is_real_data md0 = false.
Proof.
  destruct (extract_temperature_data Sim.env (init (Some 1)) "in/DJI_0001_T.jpg"
              (Sim.start Runs.jpeg_world)) as [st' [[data md]|e]] eqn:Hx.
  - exists st', data, md. split; [reflexivity|].
    destruct (loaded_sdk_still_returns_synthetic_grid Sim.env 1 _ _ _ _ _ Hx)
      as (Hreal & _ & _ & Hmock).
    split; [exact Hreal|exact Hmock].
  - exfalso. apply (f_equal snd) in Hx. vm_compute in Hx. discriminate.
Defined.

Lemma failed_extraction_writes_nothing_witness :
  is_ok (snd (extract_temperature_data Sim.env (init None) "missing.jpg"
                (Sim.start ∅))) = false /\
  snd (convert_rjpeg_to_tiff Sim.env (init None) "missing.jpg" "out/missing.tiff"
         (Sim.start ∅)) = Ok false /\
  fs Sim.env (fst (convert_rjpeg_to_tiff Sim.env (init None) "missing.jpg"
                     "out/missing.tiff" (Sim.start ∅))) = ∅.
Proof.
  split; [reflexivity|].
  apply (failed_extraction_writes_nothing Sim.env (init None) "missing.jpg"
           "out/missing.tiff" (Sim.start ∅)).
  reflexivity.
Defined.

Lemma failed_write_is_not_rolled_back_witness :
  snd (save_temperature_tiff Runs.full_disk_env (init None)
         (Sim.one_cell Sim.sample_temperature) Sim.no_metadata "out/a.tiff" "lzw"
         (Build_state Runs.full_disk_env ∅ [])) = Ok false /\
  fs Runs.full_disk_env
    (fst (save_temperature_tiff Runs.full_disk_env (init None)
            (Sim.one_cell Sim.sample_temperature) Sim.no_metadata "out/a.tiff" "lzw"
            (Build_state Runs.full_disk_env ∅ [])))
    !! "out/a.tiff"%string = Some (Sim.PlainFile "II*").
Proof.
  rewrite (failed_write_is_not_rolled_back Runs.full_disk_env (init None)
             (Sim.one_cell Sim.sample_temperature) Sim.no_metadata "out/a.tiff" "lzw"
             (Build_state Runs.full_disk_env ∅ [])
             (<["out/a.tiff"%string := Sim.PlainFile "II*"]> ∅) OSError
             eq_refl eq_refl eq_refl).
  split; reflexivity.
Defined.

Lemma tenths_are_stored_exactly_witness :
  valid_binary 24 128 Runs.twenty_and_a_half = true /\
  (10 * SF2Q Runs.twenty_and_a_half == inject_Z 205)%Q /\
  scale_cell Sim.env Runs.twenty_and_a_half = 205 /\
  (read_back (scale_cell Sim.env Runs.twenty_and_a_half)
   == SF2Q Runs.twenty_and_a_half)%Q.
Proof.
  split; [reflexivity|]. split; [reflexivity|].
  apply (tenths_are_stored_exactly Sim.env Runs.twenty_and_a_half 205);
    reflexivity.
Defined.

Lemma scaling_is_odd_witness :
  SFtrunc (f32_mul Sim.sample_temperature f32_ten) = Some 209 /\
  scale_cell Sim.env Sim.sample_temperature = 209 /\
  scale_cell Sim.env (SFopp Sim.sample_temperature) = - 209.
Proof.
  split; [reflexivity|].
  apply (scaling_is_odd Sim.env Sim.sample_temperature 209);
    [reflexivity|reflexivity|lia].
Defined.

Lemma validation_is_monotone_in_the_range_witness :
  Config.validate_temperature_range Sim.sample_temperature "M2EA" = Ok true /\
  Config.validate_temperature_range Sim.sample_temperature "m30t" = Ok true /\
  is_finite Sim.sample_temperature = true.
Proof.
  split; [reflexivity|].
  apply (validation_is_monotone_in_the_range Sim.sample_temperature "M2EA" "m30t"
           Config.M2EA_config Config.M30T_config);
    [reflexivity|reflexivity|cbn; lia|cbn; lia|reflexivity].
Defined.
